(** * cubes.expression.compiler: the expression compiler and its semantic actions

    A shallow embedding of [src/cubes/expression/compiler.py]: the default AST
    classes, the overridable [ExpressionCompiler] hooks, the
    [_ExpressionSemantics] handler the grammar parser calls at each rule
    reduction, and [ExpressionCompiler.compile].

    Python values are dynamically typed, so every payload and every compiled
    fragment is a [value].  The hooks are overridable methods that may fail and
    may mutate caller state, so the handlers live in a state-and-error monad
    whose state carries the caller's world and the sequence of hook calls made
    so far. *)

From Stdlib Require Import ZArith List String Ascii Bool Lia.
From Stdlib Require Import Floats.SpecFloat.
Import ListNotations.
Open Scope string_scope.
Set Warnings "-register-all".

(** ** Python values *)

(** The values that flow through the dispatcher.  The five node constructors
    are the instances of the [ASTNode] classes (lines 15-70); their attributes
    hold arbitrary values, as in Python.  [VDict] is the parser's dict-like
    [AST] object with named elements, [VObject] an instance of a class of the
    caller that is not derived from [ASTNode] and defines none of
    [__getitem__], [__bool__] and [__len__]. *)
Inductive value : Type :=
| VNone
| VInt (z : Z)
| VFloat (f : spec_float)
| VStr (s : string)
| VList (items : list value)
| VDict (entries : list (string * value))
| VObject (class_name : string) (state : list value)
| FunctionCall (reference args : value)
| VariableReference (reference : value)
| Literal (value_ : value)
| UnaryOperator (operator operand : value)
| BinaryOperator (operator left right : value).

(** Exceptions.  [Exception fmt arg] is [raise Exception(fmt % arg)];
    [StrategyError e] is whatever exception object [e] a hook raised. *)
Inductive exn : Type :=
| Exception (fmt : string) (arg : value)
| ValueError (token : string)
| TypeError
| IndexError
| KeyError
| AttributeError
| FailedParse (detail : string)
| StrategyError (e : value).

Inductive outcome (A : Type) : Type :=
| Return (a : A)
| Raise (e : exn).
Arguments Return {A} a.
Arguments Raise {A} e.

Module Py.

(** [isinstance(v, ASTNode)]. *)
Definition isinstance_ASTNode (v : value) : bool :=
  match v with
  | FunctionCall _ _ | VariableReference _ | Literal _
  | UnaryOperator _ _ | BinaryOperator _ _ _ => true
  | _ => false
  end.

(** [v is None]. *)
Definition is_None (v : value) : bool :=
  match v with VNone => true | _ => false end.

(** Truth value of [v] ([bool(v)]): [None], zero and empty containers are
    false; instances of classes that define neither [__bool__] nor [__len__]
    are true. *)
Definition truthy (v : value) : bool :=
  match v with
  | VNone => false
  | VInt z => negb (z =? 0)%Z
  | VFloat f => match f with S754_zero _ => false | _ => true end
  | VStr s => negb (String.length s =? 0)%nat
  | VList l => match l with [] => false | _ => true end
  | VDict d => match d with [] => false | _ => true end
  | _ => true
  end.

Definition chars (s : string) : list value :=
  map (fun c => VStr (String c EmptyString)) (list_ascii_of_string s).

(** [v[i]] for a non-negative integer index. *)
Definition getitem (v : value) (i : nat) : outcome value :=
  match v with
  | VList l => match nth_error l i with Some x => Return x | None => Raise IndexError end
  | VStr s => match nth_error (chars s) i with Some x => Return x | None => Raise IndexError end
  | VDict _ => Raise KeyError
  | _ => Raise TypeError
  end.

Fixpoint lookup (k : string) (d : list (string * value)) : option value :=
  match d with
  | [] => None
  | (k', x) :: d' => if String.eqb k k' then Some x else lookup k d'
  end.

(** [v[k]] for a string key. *)
Definition getitem_key (v : value) (k : string) : outcome value :=
  match v with
  | VDict d => match lookup k d with Some x => Return x | None => Raise KeyError end
  | _ => Raise TypeError
  end.

(** [v.get(k)]: [dict.get], [None] for a missing key. *)
Definition get (v : value) (k : string) : outcome value :=
  match v with
  | VDict d => match lookup k d with Some x => Return x | None => Return VNone end
  | _ => Raise AttributeError
  end.

(** [v.k]: the parser's [AST] object answers [None] for a name it does not
    hold; a node answers with its attribute. *)
Definition getattr (v : value) (k : string) : outcome value :=
  match v with
  | VDict d => match lookup k d with Some x => Return x | None => Return VNone end
  | FunctionCall r a =>
      if String.eqb k "reference" then Return r
      else if String.eqb k "args" then Return a else Raise AttributeError
  | VariableReference r =>
      if String.eqb k "reference" then Return r else Raise AttributeError
  | Literal x =>
      if String.eqb k "value" then Return x else Raise AttributeError
  | UnaryOperator o x =>
      if String.eqb k "operator" then Return o
      else if String.eqb k "operand" then Return x else Raise AttributeError
  | BinaryOperator o l r =>
      if String.eqb k "operator" then Return o
      else if String.eqb k "left" then Return l
      else if String.eqb k "right" then Return r else Raise AttributeError
  | _ => Raise AttributeError
  end.

(** Every second element from position [start]: the slice [l[start::2]]. *)
Fixpoint every_second {A : Type} (l : list A) : list A :=
  match l with
  | [] => []
  | x :: l' => x :: match l' with [] => [] | _ :: l'' => every_second l'' end
  end.

Definition string_of_chars (l : list ascii) : string := string_of_list_ascii l.

(** [v[start::2]] for [start] 0 or 1. *)
Definition slice_step2 (v : value) (start : nat) : outcome value :=
  match v with
  | VList l => Return (VList (every_second (skipn start l)))
  | VStr s => Return (VStr (string_of_chars (every_second (skipn start (list_ascii_of_string s)))))
  | _ => Raise TypeError
  end.

(** The elements [iter(v)] yields. *)
Definition iter (v : value) : outcome (list value) :=
  match v with
  | VList l => Return l
  | VStr s => Return (chars s)
  | VDict d => Return (map (fun kv => VStr (fst kv)) d)
  | _ => Raise TypeError
  end.

(** [zip(a, b)]. *)
Definition zip (a b : value) : outcome (list (value * value)) :=
  match iter a with
  | Raise e => Raise e
  | Return la =>
      match iter b with
      | Raise e => Raise e
      | Return lb => Return (combine la lb)
      end
  end.

Fixpoint all_strings (l : list value) : option (list string) :=
  match l with
  | [] => Some []
  | VStr s :: l' =>
      match all_strings l' with Some r => Some (s :: r) | None => None end
  | _ => None
  end.

(** [sep.join(v)]: [v] must yield strings only. *)
Definition join (sep : string) (v : value) : outcome string :=
  match iter v with
  | Raise e => Raise e
  | Return l =>
      match all_strings l with
      | Some ss => Return (String.concat sep ss)
      | None => Raise TypeError
      end
  end.

End Py.

(** [VariableReference.__str__] (lines 33-34): [".".join(self.reference)]. *)
Definition VariableReference_str (self : value) : outcome string :=
  match Py.getattr self "reference" with
  | Raise e => Raise e
  | Return r => Py.join "." r
  end.

(** ** Hooks, calls and the dispatcher's monad *)

(** One entry per call of an overridable [ExpressionCompiler] method, with the
    arguments it was given (the context first). *)
Inductive Call : Type :=
| Call_compile_literal (context literal : value)
| Call_compile_variable (context reference : value)
| Call_compile_operator (context operator left right : value)
| Call_compile_unary (context operator operand : value)
| Call_compile_function (context function args : value)
| Call_finalize (context obj : value).

Definition is_finalize (c : Call) : bool :=
  match c with Call_finalize _ _ => true | _ => false end.

Definition is_compile_variable (c : Call) : bool :=
  match c with Call_compile_variable _ _ => true | _ => false end.

(** The hooks the semantic actions call (lines 83, 86, 108, 117, 126). *)
Definition is_dispatched (c : Call) : bool :=
  match c with
  | Call_compile_literal _ _ | Call_compile_operator _ _ _ _
  | Call_compile_unary _ _ _ | Call_compile_function _ _ _ => true
  | Call_compile_variable _ _ | Call_finalize _ _ => false
  end.

(** What a hook does when called: it returns a fragment or raises an exception
    object. *)
Inductive hook_result : Type :=
| HReturn (v : value)
| HRaise (e : value).

Section Monad.

(** Everything the caller's overrides may read or mutate: the contents of the
    context object and any other state of theirs. *)
Variable World : Type.

(** The dispatcher's state: the caller's world and the hook calls made so
    far, oldest first. *)
Record state : Type := mkState { world : World; trace : list Call }.

Definition M (A : Type) : Type := state -> outcome A * state.

Definition ret {A : Type} (a : A) : M A := fun s => (Return a, s).

Definition raise {A : Type} (e : exn) : M A := fun s => (Raise e, s).

Definition bind {A B : Type} (m : M A) (k : A -> M B) : M B :=
  fun s =>
    match m s with
    | (Return a, s') => k a s'
    | (Raise e, s') => (Raise e, s')
    end.

Definition lift {A : Type} (o : outcome A) : M A := fun s => (o, s).

Definition hook : Type := World -> hook_result * World.

(** Calling a hook: the call is recorded, the hook runs on the world, and an
    exception it raises becomes the dispatcher's failure. *)
Definition call_hook (c : Call) (h : hook) : M value :=
  fun s =>
    let (r, w) := h (world s) in
    let s' := mkState w (trace s ++ [c]) in
    match r with
    | HReturn v => (Return v, s')
    | HRaise e => (Raise (StrategyError e), s')
    end.

End Monad.

Arguments ret {World A} a.
Arguments raise {World A} e.
Arguments bind {World A B} m k.
Arguments lift {World A} o.
Arguments call_hook {World} c h.
Arguments mkState {World} world trace.
Arguments world {World} s.
Arguments trace {World} s.

Notation "x <- m ;; k" := (bind m (fun x => k))
  (at level 61, m at next level, right associativity).

(** ** The compiler and its semantic actions *)

Section Compiler.

Variable World : Type.

(** The built-ins [int] and [float] applied to a string; [None] stands for
    their [ValueError]. *)
Variable py_int : string -> option Z.
Variable py_float : string -> option spec_float.

(** An [ExpressionCompiler] instance (lines 139-202): its [context]
    attribute and its six overridable methods, each taking the context first. *)
Record ExpressionCompiler : Type := mkCompiler {
  context : value;
  compile_literal : value -> value -> hook World;
  compile_variable : value -> value -> hook World;
  compile_operator : value -> value -> value -> value -> hook World;
  compile_unary : value -> value -> value -> hook World;
  compile_function : value -> value -> value -> hook World;
  finalize : value -> value -> hook World
}.

(** The base class, [ExpressionCompiler(context)], with no method overridden
    (lines 165-202). *)
Definition ExpressionCompiler_init (ctx : value) : ExpressionCompiler :=
  {| context := ctx;
     compile_literal := fun _ literal w => (HReturn (Literal literal), w);
     compile_variable := fun _ reference w => (HReturn (VariableReference reference), w);
     compile_operator := fun _ operator left right w =>
       (HReturn (BinaryOperator operator left right), w);
     compile_unary := fun _ operator operand w =>
       (HReturn (UnaryOperator operator operand), w);
     compile_function := fun _ function args w =>
       (HReturn (FunctionCall function args), w);
     finalize := fun _ obj w => (HReturn obj, w) |}.

(** [_ExpressionSemantics(compiler, context)] (lines 72-75). *)
Record _ExpressionSemantics : Type := mkSemantics {
  compiler : ExpressionCompiler;
  context_ : value
}.

Definition call_compile_literal (self : _ExpressionSemantics) (literal : value) : M World value :=
  call_hook (Call_compile_literal (context_ self) literal)
            (compile_literal (compiler self) (context_ self) literal).

Definition call_compile_operator (self : _ExpressionSemantics) (op left right : value) : M World value :=
  call_hook (Call_compile_operator (context_ self) op left right)
            (compile_operator (compiler self) (context_ self) op left right).

Definition call_compile_unary (self : _ExpressionSemantics) (op operand : value) : M World value :=
  call_hook (Call_compile_unary (context_ self) op operand)
            (compile_unary (compiler self) (context_ self) op operand).

Definition call_compile_function (self : _ExpressionSemantics) (function args : value) : M World value :=
  call_hook (Call_compile_function (context_ self) function args)
            (compile_function (compiler self) (context_ self) function args).

(** Lines 78-81: [int(ast)], and [float(ast)] when [int] raises
    [ValueError]. *)
Definition number_value (ast : string) : outcome value :=
  match py_int ast with
  | Some z => Return (VInt z)
  | None =>
      match py_float ast with
      | Some f => Return (VFloat f)
      | None => Raise (ValueError ast)
      end
  end.

(** [NUMBER] (lines 77-83). *)
Definition NUMBER (self : _ExpressionSemantics) (ast : string) : M World value :=
  value <- lift (number_value ast) ;;
  call_compile_literal self value.

(** [STRING] (lines 85-86). *)
Definition STRING (self : _ExpressionSemantics) (ast : string) : M World value :=
  call_compile_literal self (VStr ast).

(** The loop of lines 107-109. *)
Fixpoint fold_operators (self : _ExpressionSemantics) (left : value)
    (pairs : list (value * value)) : M World value :=
  match pairs with
  | [] => ret left
  | (op, right_) :: rest =>
      left' <- call_compile_operator self op left right_ ;;
      fold_operators self left' rest
  end.

(** ["Unknown args %s" % args] with [args] a tuple: one element is formatted,
    more are a [TypeError]. *)
Definition unknown_args (args : list string) : exn :=
  match args with
  | [a] => Exception "Unknown args %s" (VStr a)
  | _ => TypeError
  end.

(** Lines 96-119 of [_default]: the payload read as a pair. *)
Definition tuple_dispatch (self : _ExpressionSemantics) (ast : value)
    (args : list string) (tag : string) : M World value :=
  ast1 <- lift (Py.getitem ast 1) ;;
  if negb (Py.truthy ast1) then lift (Py.getitem ast 0)
  else if String.eqb tag "binary" then
    left <- lift (Py.getitem ast 0) ;;
    _ <- (a <- lift (Py.getitem ast 1) ;; lift (Py.getitem a 0)) ;;
    ops <- (a <- lift (Py.getitem ast 1) ;; lift (Py.slice_step2 a 0)) ;;
    rights <- (a <- lift (Py.getitem ast 1) ;; lift (Py.slice_step2 a 1)) ;;
    pairs <- lift (Py.zip ops rights) ;;
    fold_operators self left pairs
  else if String.eqb tag "unary" then
    op <- lift (Py.getitem ast 0) ;;
    operand <- lift (Py.getitem ast 1) ;;
    call_compile_unary self op operand
  else raise (unknown_args args).

(** [_default] (lines 88-119); [args] are the positional arguments after
    [ast]. *)
Definition _default (self : _ExpressionSemantics) (ast : value)
    (args : list string) : M World value :=
  match args with
  | [] => ret ast
  | tag :: _ =>
      if Py.isinstance_ASTNode ast then ret ast
      else tuple_dispatch self ast args tag
  end.

(** [atom] (lines 121-133). *)
Definition atom (self : _ExpressionSemantics) (ast : value) : M World value :=
  v <- lift (Py.getattr ast "value") ;;
  if negb (Py.is_None v) then lift (Py.getitem_key ast "value")
  else
    r <- lift (Py.getattr ast "ref") ;;
    if negb (Py.is_None r) then
      a <- lift (Py.get ast "args") ;;
      if Py.truthy a then
        function <- lift (Py.getattr ast "ref") ;;
        args <- lift (Py.getattr ast "args") ;;
        call_compile_function self function args
      else lift (Py.getattr ast "ref")
    else
      e <- lift (Py.getattr ast "expr") ;;
      if negb (Py.is_None e) then lift (Py.getattr ast "expr")
      else raise (Exception "Unhandled AST: %s" ast).

(** [reference] (lines 135-136). *)
Definition reference (self : _ExpressionSemantics) (ast : value) : M World value :=
  ret (VariableReference ast).

(** ** The grammar parser and [compile] *)

(** Modelled from the spec: the Grammar Parser ([ExpressionParser] of
    [cubes/expression/grammar.py], generated from the grammar) is not among
    the sources.  The spec fixes its interface only: on a text it either
    rejects it or performs rule reductions bottom-up, children before parents,
    handing each reduction's raw payload (and, for generic reductions, the
    rule's tag) to the semantics handler.  A [Reduction] is the shape of one
    such run: matched text, an unmatched optional element, a list of
    elements, an [AST] of named elements, and a rule whose payload is handed
    to the handler of that name. *)
Inductive Reduction : Type :=
| Token (text : string)
| Absent
| Sequence (items : list Reduction)
| Named (items : list (string * Reduction))
| Rule (name : string) (params : list string) (body : Reduction).

(** The reductions the grammar assigns to a text, or the detail of its
    rejection. *)
Variable grammar : string -> string + Reduction.

Definition mapM {A B : Type} (f : A -> M World B) : list A -> M World (list B) :=
  fix each (l : list A) : M World (list B) :=
    match l with
    | [] => ret []
    | x :: l' => v <- f x ;; vs <- each l' ;; ret (v :: vs)
    end.

(** Modelled from the spec: the handler the parser calls for a rule is the
    method of that name, and [_default] with the rule's parameters for a rule
    that has none.  The token rules are handed matched text. *)
Definition semantic_action (semantics : _ExpressionSemantics) (name : string)
    (params : list string) (payload : value) : M World value :=
  if String.eqb name "NUMBER" then
    match payload, params with
    | VStr s, [] => NUMBER semantics s
    | _, _ => raise TypeError
    end
  else if String.eqb name "STRING" then
    match payload, params with
    | VStr s, [] => STRING semantics s
    | _, _ => raise TypeError
    end
  else if String.eqb name "atom" then
    match params with
    | [] => atom semantics payload
    | _ => raise TypeError
    end
  else if String.eqb name "reference" then
    match params with
    | [] => reference semantics payload
    | _ => raise TypeError
    end
  else _default semantics payload params.

(** Modelled from the spec: one bottom-up pass over the reductions. *)
Fixpoint reduce (semantics : _ExpressionSemantics) (t : Reduction) : M World value :=
  match t with
  | Token s => ret (VStr s)
  | Absent => ret VNone
  | Sequence items =>
      vs <- mapM (reduce semantics) items ;;
      ret (VList vs)
  | Named items =>
      es <- mapM (fun kx => v <- reduce semantics (snd kx) ;; ret (fst kx, v)) items ;;
      ret (VDict es)
  | Rule name params body =>
      payload <- reduce semantics body ;;
      semantic_action semantics name params payload
  end.

(** Modelled from the spec: [ExpressionParser().parse(text, ...,
    semantics=semantics)]. *)
Definition ExpressionParser_parse (text : string)
    (semantics : _ExpressionSemantics) : M World value :=
  match grammar text with
  | inl detail => raise (FailedParse detail)
  | inr t => reduce semantics t
  end.

(** [ExpressionCompiler.compile] (lines 149-163); [passed] is the [context]
    argument, [VNone] when it is left out. *)
Definition compile (self : ExpressionCompiler) (text : string)
    (passed : value) : M World value :=
  let context := if Py.is_None passed then context self else passed in
  ast <- ExpressionParser_parse text (mkSemantics self context) ;;
  ret ast.

End Compiler.

Arguments context {World} e.
Arguments compile_literal {World} e _ _ _.
Arguments compile_variable {World} e _ _ _.
Arguments compile_operator {World} e _ _ _ _ _.
Arguments compile_unary {World} e _ _ _ _.
Arguments compile_function {World} e _ _ _ _.
Arguments finalize {World} e _ _ _.
Arguments mkCompiler {World}.
Arguments ExpressionCompiler_init {World} ctx.
Arguments mkSemantics {World} compiler context_.
Arguments compiler {World} _.
Arguments context_ {World} _.
Arguments call_compile_literal {World} self literal.
Arguments call_compile_operator {World} self op left right.
Arguments call_compile_unary {World} self op operand.
Arguments call_compile_function {World} self function args.
Arguments NUMBER {World} py_int py_float self ast.
Arguments STRING {World} self ast.
Arguments fold_operators {World} self left pairs.
Arguments tuple_dispatch {World} self ast args tag.
Arguments _default {World} self ast args.
Arguments atom {World} self ast.
Arguments reference {World} self ast.
Arguments mapM {World A B} f l.
Arguments semantic_action {World} py_int py_float semantics name params payload.
Arguments reduce {World} py_int py_float semantics t.
Arguments ExpressionParser_parse {World} py_int py_float grammar text semantics.
Arguments compile {World} py_int py_float grammar self text passed.

(** ** Payload shapes *)

(** The trailing list [[op1, right1, op2, right2, ...]] of a binary chain. *)
Fixpoint interleave (pairs : list (value * value)) : list value :=
  match pairs with
  | [] => []
  | (op, right_) :: rest => op :: right_ :: interleave rest
  end.

(** The payload [(left, [op1, right1, ...])] of a generic binary reduction. *)
Definition chain_payload (left : value) (pairs : list (value * value)) : value :=
  VList [left; VList (interleave pairs)].

(** The claim's reading of a folded chain, written from the outermost call
    inwards: [pairs_rev] lists the operator pairs last first, so
    [nest_operators self a [(op3, d); (op2, c); (op1, b)]] is
    [compile_operator(op3, compile_operator(op2, compile_operator(op1, a, b), c), d)]. *)
Fixpoint nest_operators {World : Type} (self : _ExpressionSemantics World)
    (left : value) (pairs_rev : list (value * value)) : M World value :=
  match pairs_rev with
  | [] => ret left
  | (op, right_) :: earlier =>
      inner <- nest_operators self left earlier ;;
      call_compile_operator self op inner right_
  end.

(** Two computations whose outcome is the same whatever states they start
    from. *)
Definition same_outcome {World A : Type} (m1 m2 : M World A) : Prop :=
  forall s1 s2, fst (m1 s1) = fst (m2 s2).

(** The atom payloads: an [AST] holding the four names of the rule. *)
Definition atom_payload (value_ ref args expr : value) : value :=
  VDict [("value", value_); ("ref", ref); ("args", args); ("expr", expr)].

Section ReductionInduction.

Variable P : Reduction -> Prop.
Hypothesis PToken : forall s, P (Token s).
Hypothesis PAbsent : P Absent.
Hypothesis PSequence : forall items, Forall P items -> P (Sequence items).
Hypothesis PNamed : forall items, Forall (fun kx => P (snd kx)) items -> P (Named items).
Hypothesis PRule : forall name params body, P body -> P (Rule name params body).

Fixpoint Reduction_induction (t : Reduction) : P t :=
  match t with
  | Token s => PToken s
  | Absent => PAbsent
  | Sequence items =>
      PSequence items
        ((fix each (l : list Reduction) : Forall P l :=
            match l with
            | [] => Forall_nil P
            | x :: l' => Forall_cons x (Reduction_induction x) (each l')
            end) items)
  | Named items =>
      PNamed items
        ((fix each (l : list (string * Reduction)) : Forall (fun kx => P (snd kx)) l :=
            match l with
            | [] => Forall_nil _
            | kx :: l' => Forall_cons kx (Reduction_induction (snd kx)) (each l')
            end) items)
  | Rule name params body => PRule name params body (Reduction_induction body)
  end.

End ReductionInduction.

(** ** Concrete instances *)

Module Sample.

(** A caller with no state of its own. *)
Definition start : state unit := mkState tt [].

Definition digit (c : ascii) : option Z :=
  let n := nat_of_ascii c in
  if ((48 <=? n) && (n <=? 57))%nat then Some (Z.of_nat (n - 48)) else None.

Fixpoint decimal_from (acc : Z) (s : string) : option Z :=
  match s with
  | EmptyString => Some acc
  | String c s' =>
      match digit c with
      | Some d => decimal_from (10 * acc + d) s'
      | None => None
      end
  end.

(** [int] on a string of ASCII digits; any other string is rejected here. *)
Definition decimal_int (s : string) : option Z :=
  match s with
  | EmptyString => None
  | _ => decimal_from 0 s
  end.

(** [float] on the one token the examples use: 1.5 is 3 * 2^-1. *)
Definition float_table (s : string) : option spec_float :=
  if String.eqb s "1.5" then Some (S754_finite false 3 (-1)) else None.

(** The reductions of three texts under a grammar with an untagged [start]
    rule, an [atom] rule and a tagged binary rule. *)
Definition number_atom (tok : string) : Reduction :=
  Rule "atom" [] (Named [("value", Rule "NUMBER" [] (Token tok)); ("ref", Absent);
                         ("args", Absent); ("expr", Absent)]).

Definition grammar (text : string) : string + Reduction :=
  if String.eqb text "1" then inr (Rule "start" [] (number_atom "1"))
  else if String.eqb text "1 + 2" then
    inr (Rule "start" []
           (Rule "addition" ["binary"]
              (Sequence [number_atom "1"; Sequence [Token "+"; number_atom "2"]])))
  else inl "no parse".

(** A subclass that overrides [finalize] to wrap the result. *)
Definition wrapping (ctx : value) : ExpressionCompiler unit :=
  mkCompiler ctx
    (compile_literal (ExpressionCompiler_init ctx))
    (compile_variable (ExpressionCompiler_init ctx))
    (compile_operator (ExpressionCompiler_init ctx))
    (compile_unary (ExpressionCompiler_init ctx))
    (compile_function (ExpressionCompiler_init ctx))
    (fun _ obj w => (HReturn (VObject "Wrapped" [obj]), w)).

Definition base : _ExpressionSemantics unit :=
  mkSemantics (ExpressionCompiler_init VNone) VNone.

End Sample.

(** ** Failure kinds *)

(** The run ended in the dispatcher's own [raise Exception(...)]. *)
Definition raises_Exception {World A : Type} (r : outcome A * state World) : Prop :=
  exists fmt arg, fst r = Raise (Exception fmt arg).

(** A computation that never ends in the dispatcher's own [Exception]. *)
Definition no_Exception {World A : Type} (m : M World A) : Prop :=
  forall s, ~ raises_Exception (m s).

(** A computation that only adds calls of the four hooks the dispatcher
    uses to the trace. *)
Definition dispatches_only {World A : Type} (m : M World A) : Prop :=
  forall s, exists calls,
    trace (snd (m s)) = (trace s ++ calls)%list
    /\ forallb is_dispatched calls = true.

(** A handler bound to the base class, whatever its context. *)
Definition default_semantics {World : Type} (self : _ExpressionSemantics World) : Prop :=
  exists ctx, compiler self = ExpressionCompiler_init ctx.

(** ** Rendering of the nodes *)

Section Rendering.

(** The built-in [str] on the values whose classes are not this module's:
    [None], numbers, lists, dicts and the caller's objects. *)
Variable builtin_str : value -> outcome string.

(** [str(v)]: a string is itself; a node answers with its [__str__]
    (lines 26-27, 33-34, 43-44, 54-55, 66-67).  [FunctionCall.__str__] builds
    the joined arguments before it formats the reference; the operators
    format their parts left to right. *)
Fixpoint py_str (v : value) : outcome string :=
  match v with
  | VStr s => Return s
  | Literal x => py_str x
  | VariableReference r => Py.join "." r
  | UnaryOperator o x =>
      match py_str o with
      | Raise e => Raise e
      | Return so =>
          match py_str x with
          | Raise e => Raise e
          | Return sx => Return ("(" ++ so ++ " " ++ sx ++ ")")
          end
      end
  | BinaryOperator o l r =>
      match py_str l with
      | Raise e => Raise e
      | Return sl =>
          match py_str o with
          | Raise e => Raise e
          | Return so =>
              match py_str r with
              | Raise e => Raise e
              | Return sr => Return ("(" ++ sl ++ " " ++ so ++ " " ++ sr ++ ")")
              end
          end
      end
  | FunctionCall ref args =>
      let parts :=
        match args with
        | VList items =>
            (fix each (l : list value) : outcome (list string) :=
               match l with
               | [] => Return []
               | a :: l' =>
                   match py_str a with
                   | Raise e => Raise e
                   | Return sa =>
                       match each l' with
                       | Raise e => Raise e
                       | Return rest => Return (sa :: rest)
                       end
                   end
               end) items
        | VStr s => Return (map (fun c => String c EmptyString) (list_ascii_of_string s))
        | VDict d => Return (map fst d)
        | _ => Raise TypeError
        end in
      match parts with
      | Raise e => Raise e
      | Return ps =>
          match py_str ref with
          | Raise e => Raise e
          | Return sr => Return (sr ++ "(" ++ String.concat ", " ps ++ ")")
          end
      end
  | other => builtin_str other
  end.

End Rendering.

(** ** Traces and effects of a run *)

(** The context argument a hook call was given. *)
Definition call_context (c : Call) : value :=
  match c with
  | Call_compile_literal ctx _ | Call_compile_variable ctx _
  | Call_compile_operator ctx _ _ _ | Call_compile_unary ctx _ _
  | Call_compile_function ctx _ _ | Call_finalize ctx _ => ctx
  end.

(** A computation all of whose hook calls satisfy [P]. *)
Definition calls_all {World A : Type} (P : Call -> Prop) (m : M World A) : Prop :=
  forall s, exists calls,
    trace (snd (m s)) = (trace s ++ calls)%list /\ Forall P calls.

(** A computation that leaves the caller's world as it found it. *)
Definition preserves_world {World A : Type} (m : M World A) : Prop :=
  forall s, world (snd (m s)) = world s.

(** The calls a handler makes carry the context it was bound to. *)
Definition bound_context {World : Type} (self : _ExpressionSemantics World)
    (c : Call) : Prop :=
  call_context c = context_ self.

(** The tree the base class builds for a chain, and the calls it makes on
    the way. *)
Definition left_tree (left : value) (pairs : list (value * value)) : value :=
  fold_left (fun acc p => BinaryOperator (fst p) acc (snd p)) pairs left.

Fixpoint chain_calls (ctx left : value) (pairs : list (value * value)) : list Call :=
  match pairs with
  | [] => []
  | (op, right_) :: rest =>
      Call_compile_operator ctx op left right_
        :: chain_calls ctx (BinaryOperator op left right_) rest
  end.

(** The rendering of a chain: each step wraps the text so far. *)
Definition left_text (left : string) (pairs : list (string * string)) : string :=
  fold_left (fun acc p => "(" ++ acc ++ " " ++ fst p ++ " " ++ snd p ++ ")") pairs left.

Module Cases.

(** A subclass whose [compile_operator] rejects division and otherwise
    behaves as the base class. *)
Definition no_division (ctx : value) : ExpressionCompiler unit :=
  mkCompiler ctx
    (compile_literal (ExpressionCompiler_init ctx))
    (compile_variable (ExpressionCompiler_init ctx))
    (fun c op l r w =>
       match op with
       | VStr "/" => (HRaise (VStr "division is not supported"), w)
       | _ => compile_operator (ExpressionCompiler_init ctx) c op l r w
       end)
    (compile_unary (ExpressionCompiler_init ctx))
    (compile_function (ExpressionCompiler_init ctx))
    (finalize (ExpressionCompiler_init ctx)).

Definition strict : _ExpressionSemantics unit := mkSemantics (no_division VNone) VNone.

(** [str] of the built-in values is not needed by the examples. *)
Definition no_builtin_str (v : value) : outcome string := Raise TypeError.

End Cases.

(** ** Lemmas on payloads and on the monad *)

Lemma every_second_interleave (pairs : list (value * value)) :
  Py.every_second (interleave pairs) = map fst pairs.
Proof.
  induction pairs as [|[op r] rest IH]; simpl; [reflexivity|].
  now rewrite IH.
Qed.

Lemma every_second_tail_interleave (pairs : list (value * value)) :
  Py.every_second (skipn 1 (interleave pairs)) = map snd pairs.
Proof.
  induction pairs as [|[op r] rest IH]; simpl; [reflexivity|].
  f_equal. destruct rest as [|[op' r'] rest']; [reflexivity|exact IH].
Qed.

Lemma combine_fst_snd {A B : Type} (l : list (A * B)) :
  combine (map fst l) (map snd l) = l.
Proof.
  induction l as [|[a b] l IH]; simpl; [reflexivity|now rewrite IH].
Qed.

Lemma zip_slices_interleave (pairs : list (value * value)) :
  Py.zip (VList (Py.every_second (skipn 0 (interleave pairs))))
         (VList (Py.every_second (skipn 1 (interleave pairs))))
  = Return pairs.
Proof.
  unfold Py.zip, Py.iter.
  rewrite every_second_tail_interleave.
  change (skipn 0 (interleave pairs)) with (interleave pairs).
  now rewrite every_second_interleave, combine_fst_snd.
Qed.

Section Dispatcher.

Context {World : Type}.
Implicit Types (self : _ExpressionSemantics World) (s : state World).

Lemma bind_ret_l {A B : Type} (a : A) (k : A -> M World B) s :
  bind (ret a) k s = k a s.
Proof. reflexivity. Qed.

Lemma bind_lift_return {A B : Type} (a : A) (k : A -> M World B) s :
  bind (lift (Return a)) k s = k a s.
Proof. reflexivity. Qed.

Lemma bind_lift_raise {A B : Type} (e : exn) (k : A -> M World B) s :
  bind (lift (Raise e)) k s = (Raise e, s).
Proof. reflexivity. Qed.

Lemma bind_assoc {A B C : Type} (m : M World A) (f : A -> M World B)
    (g : B -> M World C) s :
  bind (bind m f) g s = bind m (fun a => bind (f a) g) s.
Proof. unfold bind. destruct (m s) as [[a|e] s']; reflexivity. Qed.

Lemma bind_ret_r {A : Type} (m : M World A) s :
  bind m ret s = m s.
Proof. unfold bind, ret. destruct (m s) as [[a|e] s']; reflexivity. Qed.

Lemma bind_ext {A B : Type} (m : M World A) (f g : A -> M World B) s :
  (forall a s', f a s' = g a s') -> bind m f s = bind m g s.
Proof. intros H. unfold bind. destruct (m s) as [[a|e] s']; auto. Qed.

(** The loop on a chain extended by one pair: the pairs before it are folded
    first and the last operator is applied to their result. *)
Lemma fold_operators_snoc self left pairs op right_ s :
  fold_operators self left (pairs ++ [(op, right_)]) s
  = bind (fold_operators self left pairs)
         (fun acc => call_compile_operator self op acc right_) s.
Proof.
  revert left s.
  induction pairs as [|[op' r'] rest IH]; intros left s; simpl.
  - now rewrite bind_ret_r.
  - rewrite bind_assoc. apply bind_ext. intros a s'. apply IH.
Qed.

Lemma fold_operators_nest self left pairs s :
  fold_operators self left pairs s = nest_operators self left (rev pairs) s.
Proof.
  revert s. induction pairs as [|[op r] rest IH] using rev_ind; intros s.
  - reflexivity.
  - rewrite fold_operators_snoc, rev_unit. simpl.
    unfold bind. rewrite IH. reflexivity.
Qed.

(** On the payload of a binary chain with at least one pair, [_default] runs
    the loop over the pairs in order. *)
Lemma default_binary_runs_loop self left p ps rest s :
  _default self (chain_payload left (p :: ps)) ("binary" :: rest) s
  = fold_operators self left (p :: ps) s.
Proof.
  destruct p as [op r].
  pose proof (zip_slices_interleave ((op, r) :: ps)) as Hzip.
  unfold _default, chain_payload, tuple_dispatch, bind, lift.
  cbn [Py.isinstance_ASTNode Py.getitem nth_error interleave Py.truthy negb
       String.eqb Ascii.eqb Bool.eqb Py.slice_step2].
  cbn [interleave] in Hzip. rewrite Hzip. reflexivity.
Qed.

(** C2: on a generic reduction tagged "binary" with payload
    (left, [op1, right1, ..., opn, rightn]), n >= 1, the dispatcher folds
    strictly left to right: the result is the left-leaning nest
    compile_operator(opn, ... compile_operator(op1, left, right1) ..., rightn),
    each pair applied once, in encounter order, to the accumulated result;
    for three pairs this is
    compile_operator(op3, compile_operator(op2, compile_operator(op1, a, b), c), d). *)
Theorem default_binary_folds_left self :
  (forall left p ps rest s,
      _default self (chain_payload left (p :: ps)) ("binary" :: rest) s
      = nest_operators self left (rev (p :: ps)) s)
  /\ (forall a op1 b op2 c op3 d s,
      _default self (VList [a; VList [op1; b; op2; c; op3; d]]) ["binary"] s
      = (r1 <- call_compile_operator self op1 a b ;;
         r2 <- call_compile_operator self op2 r1 c ;;
         call_compile_operator self op3 r2 d) s).
Proof.
  split.
  - intros. rewrite default_binary_runs_loop. apply fold_operators_nest.
  - intros.
    change (VList [a; VList [op1; b; op2; c; op3; d]])
      with (chain_payload a [(op1, b); (op2, c); (op3, d)]).
    rewrite default_binary_runs_loop. simpl.
    apply bind_ext. intros r1 s1. apply bind_ext. intros r2 s2.
    now rewrite bind_ret_r.
Qed.

(** C6: on a generic reduction (one that carries a tag) whose trailing list
    is empty, the dispatcher returns the first element of the payload
    unchanged; the state is untouched, so no operator is applied and no hook
    is called. *)
Theorem default_empty_chain_passes_left self left tag rest s :
  _default self (VList [left; VList []]) (tag :: rest) s = (Return left, s).
Proof. reflexivity. Qed.

(** C10: in the generic fallback a payload that is an instance of an
    [ASTNode] class is returned unchanged before the tag is looked at, with
    no hook called, also under the tags "binary" and "unary"; a payload that
    is not such an instance goes on to the pair-shaped dispatch, which for an
    object of a caller's class fails at the subscript. *)
Theorem default_short_circuits_on_ASTNode self ast tag rest s :
  (Py.isinstance_ASTNode ast = true ->
     _default self ast (tag :: rest) s = (Return ast, s))
  /\ (Py.isinstance_ASTNode ast = false ->
     _default self ast (tag :: rest) s = tuple_dispatch self ast (tag :: rest) tag s)
  /\ (forall class_name fields,
     _default self (VObject class_name fields) (tag :: rest) s = (Raise TypeError, s)).
Proof.
  repeat split.
  - intros H. unfold _default. now rewrite H.
  - intros H. unfold _default. now rewrite H.
Qed.

End Dispatcher.

(** ** The reference, literal and atom rules *)

Lemma all_strings_map_VStr (segs : list string) :
  Py.all_strings (map VStr segs) = Some segs.
Proof.
  induction segs as [|x segs IH]; simpl; [reflexivity|now rewrite IH].
Qed.

Section Rules.

Context {World : Type}.
Variable py_int : string -> option Z.
Variable py_float : string -> option spec_float.
Implicit Types (self : _ExpressionSemantics World) (s : state World).

(** C7: for a reference chain the reference rule produces a
    [VariableReference] whose [reference] attribute is the ordered list of
    segments, and whose string rendering joins the segments with a dot; no
    hook is called. *)
Theorem reference_wraps_segments self (segs : list string) s :
  reference self (VList (map VStr segs)) s
    = (Return (VariableReference (VList (map VStr segs))), s)
  /\ Py.getattr (VariableReference (VList (map VStr segs))) "reference"
    = Return (VList (map VStr segs))
  /\ VariableReference_str (VariableReference (VList (map VStr segs)))
    = Return (String.concat "." segs).
Proof.
  repeat split.
  unfold VariableReference_str, Py.join. simpl.
  now rewrite all_strings_map_VStr.
Qed.

Lemma call_compile_literal_trace self v s :
  trace (snd (call_compile_literal self v s))
  = (trace s ++ [Call_compile_literal (context_ self) v])%list.
Proof.
  unfold call_compile_literal, call_hook.
  destruct (compile_literal _ _ _ _) as [[r|e] w]; reflexivity.
Qed.

(** C4: the numeric rule tries [int] on the raw token first and [float]
    exactly when [int] fails; [compile_literal] is then called once, with the
    context and with the integer for a token [int] accepts, with the float
    otherwise.  A token neither accepts leaves the [ValueError] of [float],
    with no hook called. *)
Theorem NUMBER_int_then_float self tok s :
  (forall z, py_int tok = Some z ->
     NUMBER py_int py_float self tok s = call_compile_literal self (VInt z) s
     /\ trace (snd (NUMBER py_int py_float self tok s))
        = (trace s ++ [Call_compile_literal (context_ self) (VInt z)])%list)
  /\ (forall f, py_int tok = None -> py_float tok = Some f ->
     NUMBER py_int py_float self tok s = call_compile_literal self (VFloat f) s
     /\ trace (snd (NUMBER py_int py_float self tok s))
        = (trace s ++ [Call_compile_literal (context_ self) (VFloat f)])%list)
  /\ (py_int tok = None -> py_float tok = None ->
     NUMBER py_int py_float self tok s = (Raise (ValueError tok), s)).
Proof.
  unfold NUMBER, number_value.
  split; [|split].
  - intros z Hz. rewrite Hz. rewrite bind_lift_return.
    split; [reflexivity|apply call_compile_literal_trace].
  - intros f Hz Hf. rewrite Hz, Hf. rewrite bind_lift_return.
    split; [reflexivity|apply call_compile_literal_trace].
  - intros Hz Hf. rewrite Hz, Hf. reflexivity.
Qed.

(** C5: an atom whose payload holds a sub-expression (and neither a literal
    nor a reference) yields that sub-expression's fragment itself: nothing
    wraps it, no hook is called, the state is untouched. *)
Theorem atom_passes_subexpression self d e s :
  Py.getattr (VDict d) "value" = Return VNone ->
  Py.getattr (VDict d) "ref" = Return VNone ->
  Py.getattr (VDict d) "expr" = Return e ->
  e <> VNone ->
  atom self (VDict d) s = (Return e, s).
Proof.
  intros Hv Hr He Hn. unfold atom.
  rewrite Hv, bind_lift_return. cbn [Py.is_None negb].
  rewrite Hr, bind_lift_return. cbn [Py.is_None negb].
  rewrite He, bind_lift_return.
  destruct e; try reflexivity. congruence.
Qed.

(** C3, as the code has it: for an atom whose payload holds a reference (and
    no literal), [compile_function(context, reference, args)] is called when
    the attached argument list is non-empty (true as a condition); when no
    argument list is attached, or an empty one, the reference is returned
    as-is and no hook, [compile_variable] included, is called. *)
Theorem atom_reference_dispatch self d r a s :
  Py.getattr (VDict d) "value" = Return VNone ->
  Py.getattr (VDict d) "ref" = Return r ->
  r <> VNone ->
  Py.get (VDict d) "args" = Return a ->
  (Py.truthy a = true ->
     atom self (VDict d) s = call_compile_function self r a s
     /\ trace (snd (atom self (VDict d) s))
        = (trace s ++ [Call_compile_function (context_ self) r a])%list)
  /\ (Py.truthy a = false -> atom self (VDict d) s = (Return r, s)).
Proof.
  intros Hv Hr Hn Ha.
  assert (Ha' : Py.getattr (VDict d) "args" = Return a) by exact Ha.
  assert (Hr' : negb (Py.is_None r) = true) by (destruct r; try reflexivity; congruence).
  unfold atom.
  rewrite Hv, bind_lift_return. cbn [Py.is_None negb].
  rewrite Hr, bind_lift_return. rewrite Hr'.
  rewrite Ha, bind_lift_return.
  split; intros Ht; rewrite Ht.
  - rewrite bind_lift_return, Ha', bind_lift_return.
    split; [reflexivity|].
    unfold call_compile_function, call_hook.
    destruct (compile_function _ _ _ _ _) as [[v|e] w]; reflexivity.
  - reflexivity.
Qed.

End Rules.

(** ** Where the dispatcher raises its own exception *)

Section Failures.

Context {World : Type}.
Implicit Types (self : _ExpressionSemantics World) (s : state World).

Lemma no_Exception_ret {A : Type} (a : A) : no_Exception (World := World) (ret a).
Proof. intros s (fmt & arg & H). discriminate H. Qed.

Lemma no_Exception_lift_return {A : Type} (a : A) :
  no_Exception (World := World) (lift (Return a)).
Proof. intros s (fmt & arg & H). discriminate H. Qed.

Lemma no_Exception_bind {A B : Type} (m : M World A) (k : A -> M World B) :
  no_Exception m -> (forall a, no_Exception (k a)) -> no_Exception (bind m k).
Proof.
  intros Hm Hk s (fmt & arg & H). unfold bind in H.
  destruct (m s) as [[a|e] s'] eqn:E.
  - apply (Hk a s'). now exists fmt, arg.
  - apply (Hm s). exists fmt, arg. rewrite E. simpl in *. congruence.
Qed.

Lemma no_Exception_call_hook (c : Call) (h : hook World) :
  no_Exception (call_hook c h).
Proof.
  intros s (fmt & arg & H). unfold call_hook in H.
  destruct (h (world s)) as [[v|e] w]; discriminate H.
Qed.

Lemma no_Exception_getitem (v : value) (i : nat) :
  no_Exception (World := World) (lift (Py.getitem v i)).
Proof.
  intros s (fmt & arg & H). unfold lift, Py.getitem in H. simpl in H.
  destruct v; try discriminate H;
    match type of H with context [nth_error ?l ?n] => destruct (nth_error l n) end;
    discriminate H.
Qed.

Lemma no_Exception_slice (v : value) (i : nat) :
  no_Exception (World := World) (lift (Py.slice_step2 v i)).
Proof.
  intros s (fmt & arg & H). destruct v; discriminate H.
Qed.

Lemma no_Exception_zip (a b : value) :
  no_Exception (World := World) (lift (Py.zip a b)).
Proof.
  intros s (fmt & arg & H). unfold lift, Py.zip in H. simpl in H.
  destruct a; try discriminate H; destruct b; discriminate H.
Qed.

Lemma no_Exception_fold_operators self left pairs :
  no_Exception (fold_operators self left pairs).
Proof.
  revert left. induction pairs as [|[op r] rest IH]; intros left; simpl.
  - apply no_Exception_ret.
  - apply no_Exception_bind; [apply no_Exception_call_hook|auto].
Qed.

Lemma unknown_args_Exception (args : list string) fmt arg :
  unknown_args args = Exception fmt arg ->
  exists tag, args = [tag].
Proof.
  destruct args as [|a [|b rest]]; try discriminate. now exists a.
Qed.

Lemma default_raises_Exception_iff self ast args s :
  raises_Exception (_default self ast args s) <->
  exists tag x,
    args = [tag] /\ tag <> "binary" /\ tag <> "unary"
    /\ Py.isinstance_ASTNode ast = false
    /\ Py.getitem ast 1 = Return x /\ Py.truthy x = true.
Proof.
  split.
  - intros H. unfold _default in H.
    destruct args as [|tag rest]; [now apply no_Exception_ret in H|].
    destruct (Py.isinstance_ASTNode ast) eqn:Hi; [now apply no_Exception_ret in H|].
    unfold tuple_dispatch in H.
    destruct (Py.getitem ast 1) as [x|e] eqn:H1.
    2:{ exfalso. revert H. rewrite bind_lift_raise, <- H1.
        apply (no_Exception_getitem ast 1 s). }
    rewrite bind_lift_return in H.
    destruct (Py.truthy x) eqn:Ht; cbn [negb] in H.
    2:{ exfalso. revert H. apply (no_Exception_getitem ast 0 s). }
    destruct (String.eqb tag "binary") eqn:Hb.
    { exfalso. revert H.
      repeat (apply no_Exception_bind; intros);
        auto using no_Exception_getitem, no_Exception_slice, no_Exception_zip,
                   no_Exception_fold_operators, no_Exception_lift_return. }
    destruct (String.eqb tag "unary") eqn:Hu.
    { exfalso. revert H.
      repeat (apply no_Exception_bind; intros);
        auto using no_Exception_getitem, no_Exception_lift_return.
      apply no_Exception_call_hook. }
    destruct H as (fmt & arg & H). unfold raise in H. cbn [fst] in H.
    assert (Hargs : unknown_args (tag :: rest) = Exception fmt arg) by congruence.
    apply unknown_args_Exception in Hargs as (t & Ht').
    injection Ht' as -> ->.
    exists t, x. repeat split; auto.
    + intros ->. discriminate Hb.
    + intros ->. discriminate Hu.
  - intros (tag & x & -> & Hb & Hu & Hi & H1 & Ht).
    unfold _default. rewrite Hi. unfold tuple_dispatch.
    rewrite H1, bind_lift_return, Ht. cbn [negb].
    apply String.eqb_neq in Hb, Hu. rewrite Hb, Hu.
    exists "Unknown args %s", (VStr tag). reflexivity.
Qed.

Lemma is_None_true (v : value) : Py.is_None v = true -> v = VNone.
Proof. destruct v; simpl; congruence. Qed.

Lemma getattr_VDict (d : list (string * value)) (k : string) :
  exists v, Py.getattr (VDict d) k = Return v.
Proof. simpl. destruct (Py.lookup k d); eauto. Qed.

Lemma no_Exception_getitem_key (v : value) (k : string) :
  no_Exception (World := World) (lift (Py.getitem_key v k)).
Proof.
  intros s (fmt & arg & H). unfold lift, Py.getitem_key in H. simpl in H.
  destruct v; try discriminate H. destruct (Py.lookup k entries); discriminate H.
Qed.

Lemma no_Exception_get (v : value) (k : string) :
  no_Exception (World := World) (lift (Py.get v k)).
Proof.
  intros s (fmt & arg & H). unfold lift, Py.get in H. simpl in H.
  destruct v; try discriminate H. destruct (Py.lookup k entries); discriminate H.
Qed.

Lemma no_Exception_getattr (v : value) (k : string) :
  no_Exception (World := World) (lift (Py.getattr v k)).
Proof.
  intros s (fmt & arg & H). unfold lift, Py.getattr in H. simpl in H.
  destruct v; try discriminate H;
    repeat match type of H with
           | context [if ?b then _ else _] => destruct b
           | context [Py.lookup ?a ?b] => destruct (Py.lookup a b)
           end; discriminate H.
Qed.

Lemma atom_raises_Exception_iff self ast s :
  raises_Exception (atom self ast s) <->
  exists d,
    ast = VDict d
    /\ Py.getattr ast "value" = Return VNone
    /\ Py.getattr ast "ref" = Return VNone
    /\ Py.getattr ast "expr" = Return VNone.
Proof.
  split.
  - intros H. unfold atom in H.
    destruct (Py.getattr ast "value") as [v|e0] eqn:Hv.
    2:{ exfalso. revert H. rewrite bind_lift_raise, <- Hv.
        apply (no_Exception_getattr ast "value" s). }
    rewrite bind_lift_return in H.
    destruct (Py.is_None v) eqn:Nv; cbn [negb] in H.
    2:{ exfalso. revert H. apply no_Exception_getitem_key. }
    apply is_None_true in Nv. subst v.
    destruct (Py.getattr ast "ref") as [r|e0] eqn:Hr.
    2:{ exfalso. revert H. rewrite bind_lift_raise, <- Hr.
        apply (no_Exception_getattr ast "ref" s). }
    rewrite bind_lift_return in H.
    destruct (Py.is_None r) eqn:Nr; cbn [negb] in H.
    2:{ exfalso. revert H. apply no_Exception_bind.
        - apply no_Exception_get.
        - intros a. destruct (Py.truthy a).
          + repeat (apply no_Exception_bind; intros);
              auto using no_Exception_getattr, no_Exception_lift_return.
            apply no_Exception_call_hook.
          + apply no_Exception_lift_return. }
    apply is_None_true in Nr. subst r.
    destruct (Py.getattr ast "expr") as [x|e0] eqn:He.
    2:{ exfalso. revert H. rewrite bind_lift_raise, <- He.
        apply (no_Exception_getattr ast "expr" s). }
    rewrite bind_lift_return in H.
    destruct (Py.is_None x) eqn:Nx; cbn [negb] in H.
    2:{ exfalso. revert H. apply no_Exception_lift_return. }
    apply is_None_true in Nx. subst x.
    destruct ast; try discriminate Hr.
    now exists entries.
  - intros (d & -> & Hv & Hr & He). unfold atom.
    rewrite Hv, bind_lift_return. cbn [Py.is_None negb].
    rewrite Hr, bind_lift_return. cbn [Py.is_None negb].
    rewrite He, bind_lift_return. cbn [Py.is_None negb].
    exists "Unhandled AST: %s", (VDict d). reflexivity.
Qed.

Lemma no_Exception_reference self ast : no_Exception (reference self ast).
Proof. apply no_Exception_ret. Qed.

Lemma no_Exception_STRING self tok : no_Exception (STRING self tok).
Proof. apply no_Exception_call_hook. Qed.

Lemma no_Exception_NUMBER py_int py_float self tok :
  no_Exception (NUMBER py_int py_float self tok).
Proof.
  unfold NUMBER. apply no_Exception_bind.
  - intros s (f & a & H). unfold lift, number_value in H. simpl in H.
    destruct (py_int tok); [discriminate H|].
    destruct (py_float tok); discriminate H.
  - intros v. apply no_Exception_call_hook.
Qed.

End Failures.

(** ** Hook calls made during a run *)

Section Calls.

Context {World : Type}.
Implicit Types (self : _ExpressionSemantics World) (s : state World).

Lemma dispatches_only_ret {A : Type} (a : A) : dispatches_only (World := World) (ret a).
Proof. intros s. exists []. split; [now rewrite app_nil_r|reflexivity]. Qed.

Lemma dispatches_only_raise {A : Type} (e : exn) : dispatches_only (World := World) (A := A) (raise e).
Proof. intros s. exists []. split; [now rewrite app_nil_r|reflexivity]. Qed.

Lemma dispatches_only_lift {A : Type} (o : outcome A) : dispatches_only (World := World) (lift o).
Proof. intros s. exists []. split; [now rewrite app_nil_r|reflexivity]. Qed.

Lemma dispatches_only_bind {A B : Type} (m : M World A) (k : A -> M World B) :
  dispatches_only m -> (forall a, dispatches_only (k a)) -> dispatches_only (bind m k).
Proof.
  intros Hm Hk s. unfold bind.
  destruct (Hm s) as (c1 & E1 & F1).
  destruct (m s) as [[a|e] s'] eqn:E; simpl in E1.
  - destruct (Hk a s') as (c2 & E2 & F2).
    exists (c1 ++ c2)%list. split.
    + now rewrite E2, E1, app_assoc.
    + now rewrite forallb_app, F1, F2.
  - exists c1. now split.
Qed.

Lemma dispatches_only_call_hook (c : Call) (h : hook World) :
  is_dispatched c = true -> dispatches_only (call_hook c h).
Proof.
  intros Hc s. exists [c]. unfold call_hook.
  destruct (h (world s)) as [[v|e] w]; simpl; now rewrite Hc.
Qed.

Lemma dispatches_only_fold_operators self left pairs :
  dispatches_only (fold_operators self left pairs).
Proof.
  revert left. induction pairs as [|[op r] rest IH]; intros left; simpl.
  - apply dispatches_only_ret.
  - apply dispatches_only_bind; [now apply dispatches_only_call_hook|auto].
Qed.

Lemma dispatches_only_mapM {A B : Type} (f : A -> M World B) (l : list A) :
  Forall (fun x => dispatches_only (f x)) l -> dispatches_only (mapM f l).
Proof.
  induction 1 as [|x l Hx Hl IH]; simpl.
  - apply dispatches_only_ret.
  - apply dispatches_only_bind; [exact Hx|intros v].
    apply dispatches_only_bind; [exact IH|intros vs]. apply dispatches_only_ret.
Qed.

Ltac dispatch_steps :=
  repeat first
    [ apply dispatches_only_ret | apply dispatches_only_raise | apply dispatches_only_lift
    | apply dispatches_only_fold_operators
    | apply dispatches_only_call_hook; reflexivity
    | apply dispatches_only_bind; [|intros ?]
    | match goal with |- dispatches_only (if ?b then _ else _) => destruct b end
    | match goal with |- dispatches_only (match ?x with _ => _ end) => destruct x end ].

Lemma dispatches_only_default self ast args : dispatches_only (_default self ast args).
Proof. unfold _default, tuple_dispatch, call_compile_unary. dispatch_steps. Qed.

Lemma dispatches_only_atom self ast : dispatches_only (atom self ast).
Proof. unfold atom, call_compile_function. dispatch_steps. Qed.

Variable py_int : string -> option Z.
Variable py_float : string -> option spec_float.
Variable grammar : string -> string + Reduction.

Lemma dispatches_only_semantic_action self name params payload :
  dispatches_only (semantic_action py_int py_float self name params payload).
Proof.
  unfold semantic_action.
  destruct (String.eqb name "NUMBER").
  { destruct payload, params; try apply dispatches_only_raise.
    unfold NUMBER, call_compile_literal. dispatch_steps. }
  destruct (String.eqb name "STRING").
  { destruct payload, params; try apply dispatches_only_raise.
    unfold STRING, call_compile_literal. dispatch_steps. }
  destruct (String.eqb name "atom").
  { destruct params; [apply dispatches_only_atom|apply dispatches_only_raise]. }
  destruct (String.eqb name "reference").
  { destruct params; [apply dispatches_only_ret|apply dispatches_only_raise]. }
  apply dispatches_only_default.
Qed.

Lemma reduce_Sequence self items :
  reduce py_int py_float self (Sequence items)
  = (vs <- mapM (reduce py_int py_float self) items ;; ret (VList vs)).
Proof. reflexivity. Qed.

Lemma reduce_Named self items :
  reduce py_int py_float self (Named items)
  = (es <- mapM (fun kx => v <- reduce py_int py_float self (snd kx) ;; ret (fst kx, v)) items ;;
     ret (VDict es)).
Proof. reflexivity. Qed.

Lemma reduce_Rule self name params body :
  reduce py_int py_float self (Rule name params body)
  = (payload <- reduce py_int py_float self body ;;
     semantic_action py_int py_float self name params payload).
Proof. reflexivity. Qed.

Lemma dispatches_only_reduce self t : dispatches_only (reduce py_int py_float self t).
Proof.
  induction t as [tok| |items IH|items IH|name params body IH] using Reduction_induction.
  - apply dispatches_only_ret.
  - apply dispatches_only_ret.
  - rewrite reduce_Sequence. apply dispatches_only_bind.
    + now apply dispatches_only_mapM.
    + intros vs. apply dispatches_only_ret.
  - rewrite reduce_Named. apply dispatches_only_bind.
    + apply dispatches_only_mapM. eapply Forall_impl; [|exact IH].
      intros kx H. apply dispatches_only_bind; [exact H|intros v; apply dispatches_only_ret].
    + intros es. apply dispatches_only_ret.
  - rewrite reduce_Rule. apply dispatches_only_bind; [exact IH|intros payload].
    apply dispatches_only_semantic_action.
Qed.

(** [compile] hands back what the parser returned. *)
Lemma compile_is_parse (e : ExpressionCompiler World) text passed s :
  compile py_int py_float grammar e text passed s
  = ExpressionParser_parse py_int py_float grammar text
      (mkSemantics e (if Py.is_None passed then context e else passed)) s.
Proof. unfold compile. apply bind_ret_r. Qed.

Lemma dispatches_only_compile (e : ExpressionCompiler World) text passed :
  dispatches_only (compile py_int py_float grammar e text passed).
Proof.
  intros s. rewrite compile_is_parse. unfold ExpressionParser_parse.
  destruct (grammar text) as [detail|t].
  - apply (dispatches_only_raise (A := value)).
  - apply dispatches_only_reduce.
Qed.

Lemma forallb_weaken {A : Type} (p q : A -> bool) (l : list A) :
  (forall x, p x = true -> q x = true) -> forallb p l = true -> forallb q l = true.
Proof.
  intros Hpq. induction l as [|x l IH]; simpl; [reflexivity|].
  intros H. apply andb_true_iff in H as [Hx Hl].
  now rewrite (Hpq x Hx), IH.
Qed.

(** C1 (defect of the code): [compile] returns the root fragment as the
    parser produced it and never calls the [finalize] hook, although its
    docstring promises a finalized object; the result is [finalize]'s only
    when [finalize] is the identity. *)
Theorem compile_never_calls_finalize (e : ExpressionCompiler World) text passed s :
  compile py_int py_float grammar e text passed s
  = ExpressionParser_parse py_int py_float grammar text
      (mkSemantics e (if Py.is_None passed then context e else passed)) s
  /\ exists calls,
      trace (snd (compile py_int py_float grammar e text passed s))
      = (trace s ++ calls)%list
      /\ forallb (fun c => negb (is_finalize c)) calls = true.
Proof.
  split; [apply compile_is_parse|].
  destruct (dispatches_only_compile e text passed s) as (calls & E & F).
  exists calls. split; [exact E|].
  revert F. apply forallb_weaken. now intros [].
Qed.

(** No run of [compile] calls the [compile_variable] hook: a bare reference
    is the [VariableReference] the reference rule built. *)
Theorem compile_never_calls_compile_variable (e : ExpressionCompiler World) text passed s :
  exists calls,
    trace (snd (compile py_int py_float grammar e text passed s))
    = (trace s ++ calls)%list
    /\ forallb (fun c => negb (is_compile_variable c)) calls = true.
Proof.
  destruct (dispatches_only_compile e text passed s) as (calls & E & F).
  exists calls. split; [exact E|].
  revert F. apply forallb_weaken. now intros [].
Qed.

End Calls.

(** ** Default compilation does not depend on the context or the world *)

Section Determinism.

Context {World : Type}.
Implicit Types (s : state World).

Lemma same_ret {A : Type} (a : A) : same_outcome (World := World) (ret a) (ret a).
Proof. intros s1 s2. reflexivity. Qed.

Lemma same_raise {A : Type} (e : exn) :
  same_outcome (World := World) (A := A) (raise e) (raise e).
Proof. intros s1 s2. reflexivity. Qed.

Lemma same_lift {A : Type} (o : outcome A) :
  same_outcome (World := World) (lift o) (lift o).
Proof. intros s1 s2. reflexivity. Qed.

Lemma same_bind {A B : Type} (m1 m2 : M World A) (k1 k2 : A -> M World B) :
  same_outcome m1 m2 -> (forall a, same_outcome (k1 a) (k2 a)) ->
  same_outcome (bind m1 k1) (bind m2 k2).
Proof.
  intros Hm Hk s1 s2. unfold bind. specialize (Hm s1 s2).
  destruct (m1 s1) as [[a1|e1] s1'], (m2 s2) as [[a2|e2] s2'];
    simpl in Hm; try discriminate Hm.
  - injection Hm as ->. apply Hk.
  - injection Hm as ->. reflexivity.
Qed.

Section Handlers.

Variables self1 self2 : _ExpressionSemantics World.
Hypothesis default1 : default_semantics self1.
Hypothesis default2 : default_semantics self2.

Lemma same_call_compile_literal v :
  same_outcome (call_compile_literal self1 v) (call_compile_literal self2 v).
Proof.
  destruct default1 as (c1 & E1), default2 as (c2 & E2).
  intros s1 s2. unfold call_compile_literal, call_hook. now rewrite E1, E2.
Qed.

Lemma same_call_compile_operator op l r :
  same_outcome (call_compile_operator self1 op l r) (call_compile_operator self2 op l r).
Proof.
  destruct default1 as (c1 & E1), default2 as (c2 & E2).
  intros s1 s2. unfold call_compile_operator, call_hook. now rewrite E1, E2.
Qed.

Lemma same_call_compile_unary op x :
  same_outcome (call_compile_unary self1 op x) (call_compile_unary self2 op x).
Proof.
  destruct default1 as (c1 & E1), default2 as (c2 & E2).
  intros s1 s2. unfold call_compile_unary, call_hook. now rewrite E1, E2.
Qed.

Lemma same_call_compile_function f a :
  same_outcome (call_compile_function self1 f a) (call_compile_function self2 f a).
Proof.
  destruct default1 as (c1 & E1), default2 as (c2 & E2).
  intros s1 s2. unfold call_compile_function, call_hook. now rewrite E1, E2.
Qed.

Lemma same_fold_operators left pairs :
  same_outcome (fold_operators self1 left pairs) (fold_operators self2 left pairs).
Proof.
  revert left. induction pairs as [|[op r] rest IH]; intros left; simpl.
  - apply same_ret.
  - apply same_bind; [apply same_call_compile_operator|auto].
Qed.

Ltac same_steps :=
  repeat first
    [ apply same_ret | apply same_raise | apply same_lift
    | apply same_fold_operators | apply same_call_compile_literal
    | apply same_call_compile_unary | apply same_call_compile_function
    | apply same_bind; [|intros ?]
    | match goal with |- same_outcome (if ?b then _ else _) _ => destruct b end
    | match goal with |- same_outcome (match ?x with _ => _ end) _ => destruct x end ].

Lemma same_default ast args :
  same_outcome (_default self1 ast args) (_default self2 ast args).
Proof. unfold _default, tuple_dispatch. same_steps. Qed.

Lemma same_atom ast : same_outcome (atom self1 ast) (atom self2 ast).
Proof. unfold atom. same_steps. Qed.

Variable py_int : string -> option Z.
Variable py_float : string -> option spec_float.

Lemma same_semantic_action name params payload :
  same_outcome (semantic_action py_int py_float self1 name params payload)
               (semantic_action py_int py_float self2 name params payload).
Proof.
  unfold semantic_action.
  destruct (String.eqb name "NUMBER").
  { destruct payload, params; try apply same_raise. unfold NUMBER. same_steps. }
  destruct (String.eqb name "STRING").
  { destruct payload, params; try apply same_raise. unfold STRING. same_steps. }
  destruct (String.eqb name "atom").
  { destruct params; [apply same_atom|apply same_raise]. }
  destruct (String.eqb name "reference").
  { destruct params; [apply same_ret|apply same_raise]. }
  apply same_default.
Qed.

Lemma same_mapM {A B : Type} (f1 f2 : A -> M World B) (l : list A) :
  Forall (fun x => same_outcome (f1 x) (f2 x)) l ->
  same_outcome (mapM f1 l) (mapM f2 l).
Proof.
  induction 1 as [|x l Hx Hl IH]; simpl.
  - apply same_ret.
  - apply same_bind; [exact Hx|intros v].
    apply same_bind; [exact IH|intros vs]. apply same_ret.
Qed.

Lemma same_reduce t :
  same_outcome (reduce py_int py_float self1 t) (reduce py_int py_float self2 t).
Proof.
  induction t as [tok| |items IH|items IH|name params body IH] using Reduction_induction.
  - apply same_ret.
  - apply same_ret.
  - rewrite !reduce_Sequence. apply same_bind.
    + now apply same_mapM.
    + intros vs. apply same_ret.
  - rewrite !reduce_Named. apply same_bind.
    + apply same_mapM. eapply Forall_impl; [|exact IH].
      intros kx H. apply same_bind; [exact H|intros v; apply same_ret].
    + intros es. apply same_ret.
  - rewrite !reduce_Rule. apply same_bind; [exact IH|intros payload].
    apply same_semantic_action.
Qed.

End Handlers.

Variable py_int : string -> option Z.
Variable py_float : string -> option spec_float.
Variable grammar : string -> string + Reduction.

(** C9: compiling the same text twice with the base class, each time with a
    context of its own and from any state of the world, gives the same
    outcome: equal trees (node kinds, operators, values, references and
    arguments in the same order), or the same failure. *)
Theorem default_compile_deterministic (text : string)
    (own1 own2 passed1 passed2 : value) s1 s2 :
  fst (compile py_int py_float grammar (ExpressionCompiler_init own1) text passed1 s1)
  = fst (compile py_int py_float grammar (ExpressionCompiler_init own2) text passed2 s2).
Proof.
  rewrite !compile_is_parse. unfold ExpressionParser_parse.
  destruct (grammar text) as [detail|t]; [reflexivity|].
  apply same_reduce; eexists; reflexivity.
Qed.

End Determinism.

(** ** The dispatcher's own failures, and their way out of [compile] *)

Section Propagation.

Context {World : Type}.
Variable py_int : string -> option Z.
Variable py_float : string -> option spec_float.
Variable grammar : string -> string + Reduction.
Implicit Types (self : _ExpressionSemantics World) (s : state World).

Lemma mapM_raises {A B : Type} (f : A -> M World B) before x after vs e s s1 s' :
  mapM f before s = (Return vs, s1) ->
  f x s1 = (Raise e, s') ->
  mapM f (before ++ x :: after) s = (Raise e, s').
Proof.
  revert vs s. induction before as [|y before IH]; intros vs s Hb Hx.
  - injection Hb as <- <-. simpl. unfold bind. now rewrite Hx.
  - simpl in *. unfold bind in *.
    destruct (f y s) as [[v|e0] s0]; [|discriminate Hb].
    destruct (mapM f before s0) as [[vs0|e0] s2] eqn:E; [|discriminate Hb].
    injection Hb as <- <-.
    now rewrite (IH vs0 s0 E Hx).
Qed.

(** C8, as the code has it: the dispatcher raises its own [Exception] in
    exactly two cases: in [atom], when the payload is an [AST] whose value,
    ref and expr are all [None]; and in the generic fallback, when it is
    called with one tag that is neither "binary" nor "unary" on a payload
    that is not an [ASTNode] instance and whose second element is true as a
    condition (an unrecognised tag on an [ASTNode] payload, or on a payload
    with an empty second element, is passed through).  The other rules never
    raise it.  A failure of a reduction is the failure of every enclosing
    rule and list, and of [compile]: no result is returned. *)
Theorem internal_error_cases self :
  (forall ast s,
      raises_Exception (atom self ast s) <->
      exists d, ast = VDict d
        /\ Py.getattr ast "value" = Return VNone
        /\ Py.getattr ast "ref" = Return VNone
        /\ Py.getattr ast "expr" = Return VNone)
  /\ (forall ast args s,
      raises_Exception (_default self ast args s) <->
      exists tag x,
        args = [tag] /\ tag <> "binary" /\ tag <> "unary"
        /\ Py.isinstance_ASTNode ast = false
        /\ Py.getitem ast 1 = Return x /\ Py.truthy x = true)
  /\ (forall tok ast,
      no_Exception (NUMBER py_int py_float self tok)
      /\ no_Exception (STRING self tok)
      /\ no_Exception (reference self ast))
  /\ (forall name params body e s s',
      reduce py_int py_float self body s = (Raise e, s') ->
      reduce py_int py_float self (Rule name params body) s = (Raise e, s'))
  /\ (forall name params body payload e s s1 s',
      reduce py_int py_float self body s = (Return payload, s1) ->
      semantic_action py_int py_float self name params payload s1 = (Raise e, s') ->
      reduce py_int py_float self (Rule name params body) s = (Raise e, s'))
  /\ (forall before x after vs e s s1 s',
      mapM (reduce py_int py_float self) before s = (Return vs, s1) ->
      reduce py_int py_float self x s1 = (Raise e, s') ->
      reduce py_int py_float self (Sequence (before ++ x :: after)) s = (Raise e, s'))
  /\ (forall text passed t e s s',
      grammar text = inr t ->
      reduce py_int py_float
        (mkSemantics (compiler self)
           (if Py.is_None passed then context (compiler self) else passed)) t s
        = (Raise e, s') ->
      compile py_int py_float grammar (compiler self) text passed s = (Raise e, s')).
Proof.
  split; [intros; apply atom_raises_Exception_iff|].
  split; [intros; apply default_raises_Exception_iff|].
  split; [intros; auto using no_Exception_NUMBER, no_Exception_STRING,
                             no_Exception_reference|].
  split; [intros * H; rewrite reduce_Rule; unfold bind; now rewrite H|].
  split; [intros * H1 H2; rewrite reduce_Rule; unfold bind; now rewrite H1|].
  split.
  - intros * H1 H2. rewrite reduce_Sequence. unfold bind.
    now rewrite (mapM_raises _ _ _ after _ _ _ _ _ H1 H2).
  - intros * Hg H. rewrite compile_is_parse. unfold ExpressionParser_parse.
    now rewrite Hg.
Qed.

End Propagation.

(** ** The rules on concrete payloads *)

Section Transparency.

Context {World : Type}.
Variable py_int : string -> option Z.
Variable py_float : string -> option spec_float.
Implicit Types (self : _ExpressionSemantics World) (s : state World).

(** A parenthesized sub-expression reduces to what the sub-expression
    reduces to. *)
Lemma parenthesized_reduction_transparent self x s v s' :
  reduce py_int py_float self x s = (Return v, s') ->
  v <> VNone ->
  reduce py_int py_float self
    (Rule "atom" []
       (Named [("value", Absent); ("ref", Absent); ("args", Absent); ("expr", x)])) s
  = (Return v, s').
Proof.
  intros Hx Hv. rewrite reduce_Rule, reduce_Named.
  unfold mapM. cbn [snd fst reduce]. cbv beta iota delta [bind ret]. rewrite Hx.
  change (semantic_action py_int py_float self "atom" [] ?p) with (atom self p).
  now apply atom_passes_subexpression.
Qed.

End Transparency.

Example reference_chain_renders_dotted :
  reference Sample.base (VList [VStr "a"; VStr "b"; VStr "c"]) Sample.start
    = (Return (VariableReference (VList [VStr "a"; VStr "b"; VStr "c"])), Sample.start)
  /\ VariableReference_str (VariableReference (VList [VStr "a"; VStr "b"; VStr "c"]))
    = Return "a.b.c".
Proof. split; reflexivity. Qed.

Example default_chain_is_left_leaning :
  fst (_default Sample.base
         (VList [VStr "a"; VList [VStr "-"; VStr "b"; VStr "+"; VStr "c"; VStr "*"; VStr "d"]])
         ["binary"] Sample.start)
  = Return (BinaryOperator (VStr "*")
              (BinaryOperator (VStr "+")
                 (BinaryOperator (VStr "-") (VStr "a") (VStr "b")) (VStr "c"))
              (VStr "d")).
Proof. reflexivity. Qed.

Example compile_sum_of_literals :
  fst (compile Sample.decimal_int Sample.float_table Sample.grammar
         (ExpressionCompiler_init VNone) "1 + 2" VNone Sample.start)
  = Return (BinaryOperator (VStr "+") (Literal (VInt 1)) (Literal (VInt 2))).
Proof. reflexivity. Qed.

(** With [finalize] overridden to wrap its argument, [compile] still returns
    the bare root and records the literal hook only. *)
Example compile_wrapping_returns_bare_root :
  compile Sample.decimal_int Sample.float_table Sample.grammar
    (Sample.wrapping VNone) "1" VNone Sample.start
  = (Return (Literal (VInt 1)), mkState tt [Call_compile_literal VNone (VInt 1)])
  /\ finalize (Sample.wrapping VNone) VNone (Literal (VInt 1)) tt
  = (HReturn (VObject "Wrapped" [Literal (VInt 1)]), tt).
Proof. split; reflexivity. Qed.

(** A fragment of a caller's own kind that happens to be a pair is taken
    apart by the generic fallback. *)
Example default_takes_custom_pair_apart :
  fst (_default Sample.base (VList [VStr "lit"; VInt 1]) ["unary"] Sample.start)
  = Return (UnaryOperator (VStr "lit") (VInt 1)).
Proof. reflexivity. Qed.

(** ** Instances of the theorems *)

Lemma NUMBER_int_then_float_witness :
  NUMBER Sample.decimal_int Sample.float_table Sample.base "42" Sample.start
    = call_compile_literal Sample.base (VInt 42) Sample.start
  /\ NUMBER Sample.decimal_int Sample.float_table Sample.base "1.5" Sample.start
    = call_compile_literal Sample.base (VFloat (S754_finite false 3 (-1))) Sample.start
  /\ NUMBER Sample.decimal_int Sample.float_table Sample.base "x" Sample.start
    = (Raise (ValueError "x"), Sample.start).
Proof.
  split; [|split].
  - apply (proj1 (NUMBER_int_then_float Sample.decimal_int Sample.float_table
                    Sample.base "42" Sample.start) 42%Z eq_refl).
  - apply (proj1 (proj2 (NUMBER_int_then_float Sample.decimal_int Sample.float_table
                    Sample.base "1.5" Sample.start)) _ eq_refl eq_refl).
  - apply (proj2 (proj2 (NUMBER_int_then_float Sample.decimal_int Sample.float_table
                    Sample.base "x" Sample.start)) eq_refl eq_refl).
Defined.

Lemma atom_passes_subexpression_witness :
  atom Sample.base (atom_payload VNone VNone VNone (Literal (VInt 1))) Sample.start
  = (Return (Literal (VInt 1)), Sample.start).
Proof.
  apply (atom_passes_subexpression Sample.base
           [("value", VNone); ("ref", VNone); ("args", VNone); ("expr", Literal (VInt 1))]
           (Literal (VInt 1)) Sample.start eq_refl eq_refl eq_refl).
  discriminate.
Defined.

Lemma atom_reference_dispatch_witness :
  atom Sample.base
    (atom_payload VNone (VariableReference (VList [VStr "f"]))
       (VList [Literal (VInt 1)]) VNone) Sample.start
  = call_compile_function Sample.base (VariableReference (VList [VStr "f"]))
      (VList [Literal (VInt 1)]) Sample.start
  /\ atom Sample.base
    (atom_payload VNone (VariableReference (VList [VStr "x"])) VNone VNone) Sample.start
  = (Return (VariableReference (VList [VStr "x"])), Sample.start).
Proof.
  split.
  - apply (proj1 (atom_reference_dispatch Sample.base
                    [("value", VNone); ("ref", VariableReference (VList [VStr "f"]));
                     ("args", VList [Literal (VInt 1)]); ("expr", VNone)]
                    (VariableReference (VList [VStr "f"])) (VList [Literal (VInt 1)])
                    Sample.start eq_refl eq_refl ltac:(discriminate) eq_refl)).
    reflexivity.
  - apply (proj2 (atom_reference_dispatch Sample.base
                    [("value", VNone); ("ref", VariableReference (VList [VStr "x"]));
                     ("args", VNone); ("expr", VNone)]
                    (VariableReference (VList [VStr "x"])) VNone
                    Sample.start eq_refl eq_refl ltac:(discriminate) eq_refl)).
    reflexivity.
Defined.

Lemma default_short_circuits_on_ASTNode_witness :
  _default Sample.base (BinaryOperator (VStr "+") (Literal (VInt 1)) (Literal (VInt 2)))
    ["binary"] Sample.start
  = (Return (BinaryOperator (VStr "+") (Literal (VInt 1)) (Literal (VInt 2))), Sample.start)
  /\ _default Sample.base (VStr "SELECT") ["unary"] Sample.start
  = tuple_dispatch Sample.base (VStr "SELECT") ["unary"] "unary" Sample.start.
Proof.
  split.
  - apply (proj1 (default_short_circuits_on_ASTNode Sample.base _ "binary" [] Sample.start)).
    reflexivity.
  - apply (proj1 (proj2 (default_short_circuits_on_ASTNode Sample.base _ "unary" []
                           Sample.start))).
    reflexivity.
Defined.

Lemma internal_error_cases_witness :
  raises_Exception (atom Sample.base (atom_payload VNone VNone VNone VNone) Sample.start)
  /\ raises_Exception
       (_default Sample.base (VList [VStr "a"; VList [VStr "?"; VStr "b"]])
          ["ternary"] Sample.start).
Proof.
  split.
  - apply (proj1 (internal_error_cases Sample.decimal_int Sample.float_table
                    Sample.grammar Sample.base)).
    eexists. repeat split.
  - apply (proj1 (proj2 (internal_error_cases Sample.decimal_int Sample.float_table
                           Sample.grammar Sample.base))).
    exists "ternary", (VList [VStr "?"; VStr "b"]).
    repeat split; discriminate.
Defined.

(** ** Where the claims as written fail *)

(** An attached but empty argument list: the reference comes back as-is and
    [compile_function] is not called. *)
Lemma atom_empty_argument_list_counterexample :
  atom Sample.base
    (atom_payload VNone (VariableReference (VList [VStr "f"])) (VList []) VNone)
    Sample.start
  = (Return (VariableReference (VList [VStr "f"])), Sample.start)
  /\ atom Sample.base
    (atom_payload VNone (VariableReference (VList [VStr "f"])) (VList []) VNone)
    Sample.start
  <> call_compile_function Sample.base (VariableReference (VList [VStr "f"])) (VList [])
       Sample.start.
Proof. split; [reflexivity|discriminate]. Qed.

(** A generic reduction with an unrecognised tag that does not fail: the
    payload is a compiled node, or its second element is empty. *)
Lemma default_unknown_tag_counterexample :
  _default Sample.base (Literal (VInt 1)) ["ternary"] Sample.start
    = (Return (Literal (VInt 1)), Sample.start)
  /\ ~ raises_Exception (_default Sample.base (Literal (VInt 1)) ["ternary"] Sample.start)
  /\ _default Sample.base (VList [Literal (VInt 1); VList []]) ["ternary"] Sample.start
    = (Return (Literal (VInt 1)), Sample.start).
Proof.
  split; [reflexivity|]. split; [|reflexivity].
  intros (fmt & arg & H). discriminate H.
Qed.

(** ** More on the generic fallback *)

Lemma every_second_cons {A : Type} (x : A) (l : list A) :
  Py.every_second (x :: l) = x :: Py.every_second (skipn 1 l).
Proof. destruct l; reflexivity. Qed.

Lemma every_second_dangling (pairs : list (value * value)) (op : value) :
  Py.every_second (interleave pairs ++ [op]) = (map fst pairs ++ [op])%list.
Proof.
  induction pairs as [|[o r] rest IH]; [reflexivity|].
  cbn [interleave app map fst]. rewrite every_second_cons. cbn [skipn].
  now rewrite IH.
Qed.

Lemma every_second_tail_dangling (pairs : list (value * value)) (op : value) :
  Py.every_second (skipn 1 (interleave pairs ++ [op])) = map snd pairs.
Proof.
  induction pairs as [|[o r] rest IH]; [reflexivity|].
  cbn [interleave app map snd skipn]. rewrite every_second_cons. now rewrite IH.
Qed.

Lemma combine_dangling {A B : Type} (l : list (A * B)) (x : A) :
  combine (map fst l ++ [x]) (map snd l) = l.
Proof.
  induction l as [|[a b] l IH]; simpl; [reflexivity|now rewrite IH].
Qed.

Section Fallback.

Context {World : Type}.
Implicit Types (self : _ExpressionSemantics World) (s : state World).

(** A trailing list of odd length: the last operator has no right operand
    and is dropped without a failure; the pairs before it are folded as
    usual. *)
Theorem default_binary_drops_dangling_operator self left pairs op rest s :
  _default self (VList [left; VList (interleave pairs ++ [op])]) ("binary" :: rest) s
  = fold_operators self left pairs s.
Proof.
  assert (Hzip : Py.zip (VList (Py.every_second (skipn 0 (interleave pairs ++ [op]))))
                        (VList (Py.every_second (skipn 1 (interleave pairs ++ [op]))))
                 = Return pairs).
  { unfold Py.zip, Py.iter. rewrite every_second_tail_dangling.
    change (skipn 0 (interleave pairs ++ [op])%list) with (interleave pairs ++ [op])%list.
    now rewrite every_second_dangling, combine_dangling. }
  assert (Hne : exists x l, (interleave pairs ++ [op])%list = x :: l).
  { destruct pairs as [|[o r] ps]; simpl; eauto. }
  destruct Hne as (x & l & Hl).
  unfold _default, tuple_dispatch, bind, lift.
  cbn [Py.isinstance_ASTNode Py.getitem nth_error Py.slice_step2
       String.eqb Ascii.eqb Bool.eqb].
  rewrite Hzip. rewrite Hl. reflexivity.
Qed.

(** A reduction tagged "unary" with payload (operator, operand): the
    [compile_unary] hook is called once with both; but an operand that is
    false as a condition ([None], zero, an empty string or list, as a
    caller's hooks may produce) makes the fallback return the operator
    itself, with no hook called. *)
Theorem default_unary_dispatch self op operand rest s :
  (Py.truthy operand = true ->
     _default self (VList [op; operand]) ("unary" :: rest) s
       = call_compile_unary self op operand s
     /\ trace (snd (_default self (VList [op; operand]) ("unary" :: rest) s))
        = (trace s ++ [Call_compile_unary (context_ self) op operand])%list)
  /\ (Py.truthy operand = false ->
     _default self (VList [op; operand]) ("unary" :: rest) s = (Return op, s)).
Proof.
  split; intros Ht.
  - unfold _default, tuple_dispatch, bind, lift.
    cbn [Py.isinstance_ASTNode Py.getitem nth_error String.eqb Ascii.eqb Bool.eqb].
    rewrite Ht. cbn [negb]. split; [reflexivity|].
    unfold call_compile_unary, call_hook.
    destruct (compile_unary _ _ _ _ _) as [[v|e] w]; reflexivity.
  - unfold _default, tuple_dispatch, bind, lift.
    cbn [Py.isinstance_ASTNode Py.getitem nth_error].
    now rewrite Ht.
Qed.

(** When [compile_operator] raises in the middle of a chain, the fallback
    fails with that exception at once: the state is the one the failing call
    left, so no later pair is handed to the hook. *)
Theorem default_binary_stops_at_failure self left before op right_ after rest acc e s s1 s2 :
  fold_operators self left before s = (Return acc, s1) ->
  call_compile_operator self op acc right_ s1 = (Raise e, s2) ->
  _default self (chain_payload left (before ++ (op, right_) :: after)) ("binary" :: rest) s
    = (Raise e, s2)
  /\ trace s2 = (trace s1 ++ [Call_compile_operator (context_ self) op acc right_])%list.
Proof.
  intros Hb Hc. split.
  - assert (Hne : exists p ps, (before ++ (op, right_) :: after)%list = p :: ps).
    { destruct before; simpl; eauto. }
    destruct Hne as (p & ps & Hl). rewrite Hl, default_binary_runs_loop, <- Hl.
    clear Hl p ps. revert left s Hb.
    induction before as [|[o r] before IH]; intros left s Hb.
    + injection Hb as -> ->. simpl. unfold bind. now rewrite Hc.
    + simpl in *. unfold bind in *.
      destruct (call_compile_operator self o left r s) as [[v|e0] s0]; [|discriminate Hb].
      now apply IH.
  - revert Hc. unfold call_compile_operator, call_hook.
    destruct (compile_operator _ _ _ _ _ _) as [[v|e0] w]; intros H;
      [discriminate H|].
    injection H as _ <-. reflexivity.
Qed.

(** With the base class a chain compiles to the left fold of
    [BinaryOperator] over its pairs; the world is untouched and the trace
    grows by one [compile_operator] call per pair, in order, each with the
    tree built so far as its left operand. *)
Theorem default_chain_builds_left_tree (own ctx left : value) p ps rest s :
  _default (mkSemantics (ExpressionCompiler_init own) ctx)
    (chain_payload left (p :: ps)) ("binary" :: rest) s
  = (Return (left_tree left (p :: ps)),
     mkState (world s) (trace s ++ chain_calls ctx left (p :: ps))).
Proof.
  rewrite default_binary_runs_loop.
  generalize (p :: ps). clear p ps. intros pairs. revert left s.
  induction pairs as [|[op r] pairs IH]; intros left s.
  - simpl. unfold ret. rewrite app_nil_r. now destruct s.
  - cbn [fold_operators]. unfold bind, call_compile_operator, call_hook.
    cbn [compiler context_ compile_operator ExpressionCompiler_init].
    rewrite IH. cbn [world trace left_tree fold_left fst snd chain_calls].
    now rewrite <- app_assoc.
Qed.

End Fallback.

(** ** The context every hook receives *)

Section ContextThreading.

Context {World : Type}.
Implicit Types (self : _ExpressionSemantics World) (s : state World).

Lemma calls_all_ret {A : Type} (P : Call -> Prop) (a : A) :
  calls_all (World := World) P (ret a).
Proof. intros s. exists []. split; [now rewrite app_nil_r|constructor]. Qed.

Lemma calls_all_raise {A : Type} (P : Call -> Prop) (e : exn) :
  calls_all (World := World) (A := A) P (raise e).
Proof. intros s. exists []. split; [now rewrite app_nil_r|constructor]. Qed.

Lemma calls_all_lift {A : Type} (P : Call -> Prop) (o : outcome A) :
  calls_all (World := World) P (lift o).
Proof. intros s. exists []. split; [now rewrite app_nil_r|constructor]. Qed.

Lemma calls_all_bind {A B : Type} (P : Call -> Prop) (m : M World A) (k : A -> M World B) :
  calls_all P m -> (forall a, calls_all P (k a)) -> calls_all P (bind m k).
Proof.
  intros Hm Hk s. unfold bind.
  destruct (Hm s) as (c1 & E1 & F1).
  destruct (m s) as [[a|e] s'] eqn:E; simpl in E1.
  - destruct (Hk a s') as (c2 & E2 & F2).
    exists (c1 ++ c2)%list. split.
    + now rewrite E2, E1, app_assoc.
    + apply Forall_app. now split.
  - exists c1. now split.
Qed.

Lemma calls_all_call_hook (P : Call -> Prop) (c : Call) (h : hook World) :
  P c -> calls_all P (call_hook c h).
Proof.
  intros Hc s. exists [c]. unfold call_hook.
  destruct (h (world s)) as [[v|e] w]; simpl; split; auto.
Qed.

Lemma calls_all_mapM {A B : Type} (P : Call -> Prop) (f : A -> M World B) (l : list A) :
  Forall (fun x => calls_all P (f x)) l -> calls_all P (mapM f l).
Proof.
  induction 1 as [|x l Hx Hl IH]; simpl.
  - apply calls_all_ret.
  - apply calls_all_bind; [exact Hx|intros v].
    apply calls_all_bind; [exact IH|intros vs]. apply calls_all_ret.
Qed.

Lemma bound_fold_operators self left pairs :
  calls_all (bound_context self) (fold_operators self left pairs).
Proof.
  revert left. induction pairs as [|[op r] rest IH]; intros left; simpl.
  - apply calls_all_ret.
  - apply calls_all_bind; [now apply calls_all_call_hook|auto].
Qed.

Ltac bound_steps :=
  repeat first
    [ apply calls_all_ret | apply calls_all_raise | apply calls_all_lift
    | apply bound_fold_operators
    | apply calls_all_call_hook; reflexivity
    | apply calls_all_bind; [|intros ?]
    | match goal with |- calls_all _ (if ?b then _ else _) => destruct b end
    | match goal with |- calls_all _ (match ?x with _ => _ end) => destruct x end ].

Lemma bound_default self ast args : calls_all (bound_context self) (_default self ast args).
Proof. unfold _default, tuple_dispatch, call_compile_unary. bound_steps. Qed.

Lemma bound_atom self ast : calls_all (bound_context self) (atom self ast).
Proof. unfold atom, call_compile_function. bound_steps. Qed.

Variable py_int : string -> option Z.
Variable py_float : string -> option spec_float.
Variable grammar : string -> string + Reduction.

Lemma bound_NUMBER self tok :
  calls_all (bound_context self) (NUMBER py_int py_float self tok).
Proof. unfold NUMBER, call_compile_literal. bound_steps. Qed.

Lemma bound_STRING self tok : calls_all (bound_context self) (STRING self tok).
Proof. unfold STRING, call_compile_literal. bound_steps. Qed.

Lemma bound_semantic_action self name params payload :
  calls_all (bound_context self) (semantic_action py_int py_float self name params payload).
Proof.
  unfold semantic_action.
  destruct (String.eqb name "NUMBER").
  { destruct payload, params; try apply calls_all_raise. apply bound_NUMBER. }
  destruct (String.eqb name "STRING").
  { destruct payload, params; try apply calls_all_raise. apply bound_STRING. }
  destruct (String.eqb name "atom").
  { destruct params; [apply bound_atom|apply calls_all_raise]. }
  destruct (String.eqb name "reference").
  { destruct params; [apply calls_all_ret|apply calls_all_raise]. }
  apply bound_default.
Qed.

Lemma bound_reduce self t :
  calls_all (bound_context self) (reduce py_int py_float self t).
Proof.
  induction t as [tok| |items IH|items IH|name params body IH] using Reduction_induction.
  - apply calls_all_ret.
  - apply calls_all_ret.
  - rewrite reduce_Sequence. apply calls_all_bind.
    + now apply calls_all_mapM.
    + intros vs. apply calls_all_ret.
  - rewrite reduce_Named. apply calls_all_bind.
    + apply calls_all_mapM. eapply Forall_impl; [|exact IH].
      intros kx H. apply calls_all_bind; [exact H|intros v; apply calls_all_ret].
    + intros es. apply calls_all_ret.
  - rewrite reduce_Rule. apply calls_all_bind; [exact IH|intros payload].
    apply bound_semantic_action.
Qed.

(** Every hook call a semantic action makes is given the context the
    handler was bound to, whatever the payload; so every hook call of one
    [compile] run is given the same context: the one passed in, or the
    compiler's own when [None] is passed. *)
Theorem hooks_receive_effective_context self :
  (forall ast args, calls_all (bound_context self) (_default self ast args))
  /\ (forall ast, calls_all (bound_context self) (atom self ast))
  /\ (forall tok, calls_all (bound_context self) (NUMBER py_int py_float self tok))
  /\ (forall tok, calls_all (bound_context self) (STRING self tok))
  /\ (forall text passed,
      calls_all
        (fun c => call_context c
                  = if Py.is_None passed then context (compiler self) else passed)
        (compile py_int py_float grammar (compiler self) text passed)).
Proof.
  split; [intros; apply bound_default|].
  split; [intros; apply bound_atom|].
  split; [intros; apply bound_NUMBER|].
  split; [intros; apply bound_STRING|].
  intros text passed s. rewrite compile_is_parse. unfold ExpressionParser_parse.
  destruct (grammar text) as [detail|t].
  - apply (calls_all_raise (A := value)).
  - apply (bound_reduce
             (mkSemantics (compiler self)
                (if Py.is_None passed then context (compiler self) else passed)) t s).
Qed.

(** Leaving the context out is the same as passing the compiler's own. *)
Theorem compile_defaults_to_own_context (e : ExpressionCompiler World) text s :
  compile py_int py_float grammar e text VNone s
  = compile py_int py_float grammar e text (context e) s.
Proof.
  rewrite !compile_is_parse. cbn [Py.is_None].
  destruct (Py.is_None (context e)) eqn:E; [|reflexivity].
  apply is_None_true in E. now rewrite E.
Qed.

End ContextThreading.

(** ** The base class has no side effects *)

Section Frame.

Context {World : Type}.
Implicit Types (self : _ExpressionSemantics World) (s : state World).

Lemma preserves_ret {A : Type} (a : A) : preserves_world (World := World) (ret a).
Proof. intros s. reflexivity. Qed.

Lemma preserves_raise {A : Type} (e : exn) :
  preserves_world (World := World) (A := A) (raise e).
Proof. intros s. reflexivity. Qed.

Lemma preserves_lift {A : Type} (o : outcome A) : preserves_world (World := World) (lift o).
Proof. intros s. reflexivity. Qed.

Lemma preserves_bind {A B : Type} (m : M World A) (k : A -> M World B) :
  preserves_world m -> (forall a, preserves_world (k a)) -> preserves_world (bind m k).
Proof.
  intros Hm Hk s. unfold bind. specialize (Hm s).
  destruct (m s) as [[a|e] s']; simpl in Hm.
  - now rewrite Hk.
  - exact Hm.
Qed.

Lemma preserves_mapM {A B : Type} (f : A -> M World B) (l : list A) :
  Forall (fun x => preserves_world (f x)) l -> preserves_world (mapM f l).
Proof.
  induction 1 as [|x l Hx Hl IH]; simpl.
  - apply preserves_ret.
  - apply preserves_bind; [exact Hx|intros v].
    apply preserves_bind; [exact IH|intros vs]. apply preserves_ret.
Qed.

Section BaseClass.

Variable self : _ExpressionSemantics World.
Hypothesis base : default_semantics self.

Lemma preserves_call_compile_literal v : preserves_world (call_compile_literal self v).
Proof.
  destruct base as (c & E). intros s.
  unfold call_compile_literal, call_hook. now rewrite E.
Qed.

Lemma preserves_call_compile_operator op l r :
  preserves_world (call_compile_operator self op l r).
Proof.
  destruct base as (c & E). intros s.
  unfold call_compile_operator, call_hook. now rewrite E.
Qed.

Lemma preserves_call_compile_unary op x : preserves_world (call_compile_unary self op x).
Proof.
  destruct base as (c & E). intros s.
  unfold call_compile_unary, call_hook. now rewrite E.
Qed.

Lemma preserves_call_compile_function f a :
  preserves_world (call_compile_function self f a).
Proof.
  destruct base as (c & E). intros s.
  unfold call_compile_function, call_hook. now rewrite E.
Qed.

Lemma preserves_fold_operators left pairs :
  preserves_world (fold_operators self left pairs).
Proof.
  revert left. induction pairs as [|[op r] rest IH]; intros left; simpl.
  - apply preserves_ret.
  - apply preserves_bind; [apply preserves_call_compile_operator|auto].
Qed.

Ltac preserves_steps :=
  repeat first
    [ apply preserves_ret | apply preserves_raise | apply preserves_lift
    | apply preserves_fold_operators | apply preserves_call_compile_literal
    | apply preserves_call_compile_unary | apply preserves_call_compile_function
    | apply preserves_bind; [|intros ?]
    | match goal with |- preserves_world (if ?b then _ else _) => destruct b end
    | match goal with |- preserves_world (match ?x with _ => _ end) => destruct x end ].

Lemma preserves_default ast args : preserves_world (_default self ast args).
Proof. unfold _default, tuple_dispatch. preserves_steps. Qed.

Lemma preserves_atom ast : preserves_world (atom self ast).
Proof. unfold atom. preserves_steps. Qed.

Variable py_int : string -> option Z.
Variable py_float : string -> option spec_float.

Lemma preserves_semantic_action name params payload :
  preserves_world (semantic_action py_int py_float self name params payload).
Proof.
  unfold semantic_action.
  destruct (String.eqb name "NUMBER").
  { destruct payload, params; try apply preserves_raise. unfold NUMBER. preserves_steps. }
  destruct (String.eqb name "STRING").
  { destruct payload, params; try apply preserves_raise. unfold STRING. preserves_steps. }
  destruct (String.eqb name "atom").
  { destruct params; [apply preserves_atom|apply preserves_raise]. }
  destruct (String.eqb name "reference").
  { destruct params; [apply preserves_ret|apply preserves_raise]. }
  apply preserves_default.
Qed.

Lemma preserves_reduce t : preserves_world (reduce py_int py_float self t).
Proof.
  induction t as [tok| |items IH|items IH|name params body IH] using Reduction_induction.
  - apply preserves_ret.
  - apply preserves_ret.
  - rewrite reduce_Sequence. apply preserves_bind.
    + now apply preserves_mapM.
    + intros vs. apply preserves_ret.
  - rewrite reduce_Named. apply preserves_bind.
    + apply preserves_mapM. eapply Forall_impl; [|exact IH].
      intros kx H. apply preserves_bind; [exact H|intros v; apply preserves_ret].
    + intros es. apply preserves_ret.
  - rewrite reduce_Rule. apply preserves_bind; [exact IH|intros payload].
    apply preserves_semantic_action.
Qed.

End BaseClass.

Variable py_int : string -> option Z.
Variable py_float : string -> option spec_float.
Variable grammar : string -> string + Reduction.

(** The hooks of the base class ignore the context and touch nothing: every
    semantic action bound to it, on any payload, and every [compile] run,
    successful or not, leaves the caller's world as it was. *)
Theorem base_class_preserves_world (own ctx : value) :
  (forall ast args,
      preserves_world
        (_default (World := World) (mkSemantics (ExpressionCompiler_init own) ctx) ast args))
  /\ (forall ast,
      preserves_world (atom (World := World) (mkSemantics (ExpressionCompiler_init own) ctx) ast))
  /\ (forall tok,
      preserves_world
        (NUMBER py_int py_float (mkSemantics (World := World) (ExpressionCompiler_init own) ctx) tok))
  /\ (forall tok,
      preserves_world (STRING (mkSemantics (World := World) (ExpressionCompiler_init own) ctx) tok))
  /\ (forall text passed,
      preserves_world
        (compile (World := World) py_int py_float grammar (ExpressionCompiler_init own) text passed)).
Proof.
  assert (Hb : forall c, default_semantics
                 (mkSemantics (World := World) (ExpressionCompiler_init own) c))
    by (intros c; now exists own).
  split; [intros; now apply preserves_default|].
  split; [intros; now apply preserves_atom|].
  split; [intros; unfold NUMBER; apply preserves_bind;
          [apply preserves_lift|intros; now apply preserves_call_compile_literal]|].
  split; [intros; now apply preserves_call_compile_literal|].
  intros text passed s. rewrite compile_is_parse. unfold ExpressionParser_parse.
  destruct (grammar text) as [detail|t]; [reflexivity|].
  now apply preserves_reduce.
Qed.

End Frame.

(** ** Literals in atoms *)

Section AtomLiteral.

Context {World : Type}.
Implicit Types (self : _ExpressionSemantics World) (s : state World).

(** An atom whose payload holds a literal yields that literal's fragment as
    it is, whatever else the payload holds: the reference, the arguments
    and the sub-expression are not looked at and no hook is called. *)
Theorem atom_passes_literal self d v s :
  Py.getattr (VDict d) "value" = Return v ->
  v <> VNone ->
  atom self (VDict d) s = (Return v, s).
Proof.
  intros Hv Hn. unfold atom. rewrite Hv, bind_lift_return.
  assert (Hk : Py.getitem_key (VDict d) "value" = Return v).
  { simpl in *. destruct (Py.lookup "value" d); [exact Hv|congruence]. }
  rewrite Hk. destruct v; try reflexivity. congruence.
Qed.

End AtomLiteral.

(** ** Rendering *)

Lemma all_strings_None_iff (l : list value) :
  Py.all_strings l = None <-> Exists (fun x => forall s, x <> VStr s) l.
Proof.
  induction l as [|x l IH]; simpl.
  - split; [discriminate|intros H; inversion H].
  - split.
    + intros H. destruct x; try (left; intros s0; discriminate).
      destruct (Py.all_strings l); [discriminate|]. right. now apply IH.
    + intros H. inversion H as [y l' Hx|y l' Hl]; subst.
      * destruct x; try reflexivity. now destruct (Hx s).
      * apply IH in Hl. rewrite Hl. now destruct x.
Qed.

(** A reference whose segments are given as a list renders exactly when
    every segment is a string; one segment of another type makes
    [__str__] fail with a [TypeError]. *)
Theorem reference_str_fails_iff (l : list value) :
  VariableReference_str (VariableReference (VList l)) = Raise TypeError
  <-> Exists (fun x => forall s, x <> VStr s) l.
Proof.
  unfold VariableReference_str, Py.join. cbn [Py.getattr String.eqb Ascii.eqb Bool.eqb Py.iter].
  rewrite <- all_strings_None_iff.
  destruct (Py.all_strings l); split; congruence.
Qed.

Section RenderingFacts.

Variable builtin_str : value -> outcome string.

(** Rendering keeps no trace of the kind of a leaf: a string literal is
    rendered without quotes, so a literal holding a dotted name and the
    reference with those segments render to the same text. *)
Theorem literal_renders_like_reference (segs : list string) :
  py_str builtin_str (Literal (VStr (String.concat "." segs)))
  = py_str builtin_str (VariableReference (VList (map VStr segs))).
Proof.
  cbn [py_str]. unfold Py.join. cbn [Py.iter].
  now rewrite all_strings_map_VStr.
Qed.

(** A call renders as the reference's text followed by the arguments'
    texts, comma-separated, in parentheses; with no argument the
    parentheses are empty. *)
Theorem function_call_renders_call_syntax (ref : value) (args : list value)
    (name : string) (texts : list string) :
  py_str builtin_str ref = Return name ->
  Forall2 (fun a t => py_str builtin_str a = Return t) args texts ->
  py_str builtin_str (FunctionCall ref (VList args))
  = Return (name ++ "(" ++ String.concat ", " texts ++ ")").
Proof.
  intros Hr Ha. cbn [py_str].
  match goal with
  | |- match ?parts with _ => _ end = _ =>
      assert (Hp : parts = Return texts)
  end.
  { induction Ha as [|a t args texts Hat Hrest IH]; [reflexivity|].
    now rewrite Hat, IH. }
  now rewrite Hp, Hr.
Qed.

(** The tree of a chain renders fully parenthesized and nested to the left:
    every operator wraps the text of all that came before it. *)
Theorem left_tree_renders_nested (left : value) (pairs : list (value * value))
    (text : string) (texts : list (string * string)) :
  py_str builtin_str left = Return text ->
  Forall2 (fun p t => fst p = VStr (fst t) /\ py_str builtin_str (snd p) = Return (snd t))
          pairs texts ->
  py_str builtin_str (left_tree left pairs) = Return (left_text text texts).
Proof.
  intros Hl Hp. revert left text Hl.
  induction Hp as [|[op r] [top tr] pairs texts [Hop Hr] Hrest IH]; intros left text Hl.
  - exact Hl.
  - cbn [fst snd] in Hop, Hr. subst op.
    cbn [left_tree left_text fold_left fst snd]. apply IH.
    cbn [py_str]. now rewrite Hl, Hr.
Qed.

End RenderingFacts.

(** ** Instances of the further theorems *)

Lemma default_unary_dispatch_witness :
  _default Sample.base (VList [VStr "-"; Literal (VInt 1)]) ["unary"] Sample.start
    = call_compile_unary Sample.base (VStr "-") (Literal (VInt 1)) Sample.start
  /\ _default Sample.base (VList [VStr "-"; VInt 0]) ["unary"] Sample.start
    = (Return (VStr "-"), Sample.start).
Proof.
  split.
  - apply (proj1 (default_unary_dispatch Sample.base (VStr "-") (Literal (VInt 1)) []
                    Sample.start)).
    reflexivity.
  - apply (proj2 (default_unary_dispatch Sample.base (VStr "-") (VInt 0) []
                    Sample.start)).
    reflexivity.
Defined.

Lemma default_binary_stops_at_failure_witness :
  _default Cases.strict
    (chain_payload (VStr "a")
       ([(VStr "+", VStr "b")] ++ (VStr "/", VStr "c") :: [(VStr "*", VStr "d")]))
    ["binary"] Sample.start
  = (Raise (StrategyError (VStr "division is not supported")),
     mkState tt
       [Call_compile_operator VNone (VStr "+") (VStr "a") (VStr "b");
        Call_compile_operator VNone (VStr "/")
          (BinaryOperator (VStr "+") (VStr "a") (VStr "b")) (VStr "c")]).
Proof.
  apply (proj1 (default_binary_stops_at_failure Cases.strict (VStr "a")
                  [(VStr "+", VStr "b")] (VStr "/") (VStr "c") [(VStr "*", VStr "d")] []
                  (BinaryOperator (VStr "+") (VStr "a") (VStr "b"))
                  (StrategyError (VStr "division is not supported"))
                  Sample.start
                  (mkState tt [Call_compile_operator VNone (VStr "+") (VStr "a") (VStr "b")])
                  _ eq_refl eq_refl)).
Defined.

Lemma atom_passes_literal_witness :
  atom Sample.base
    (atom_payload (Literal (VInt 1)) (VariableReference (VList [VStr "x"])) VNone
       (Literal (VInt 2))) Sample.start
  = (Return (Literal (VInt 1)), Sample.start).
Proof.
  apply (atom_passes_literal Sample.base
           [("value", Literal (VInt 1)); ("ref", VariableReference (VList [VStr "x"]));
            ("args", VNone); ("expr", Literal (VInt 2))]
           (Literal (VInt 1)) Sample.start eq_refl).
  discriminate.
Defined.

Lemma reference_str_fails_iff_witness :
  VariableReference_str (VariableReference (VList [VStr "a"; VInt 1])) = Raise TypeError.
Proof.
  apply (proj2 (reference_str_fails_iff [VStr "a"; VInt 1])).
  right. left. discriminate.
Defined.

Lemma function_call_renders_call_syntax_witness :
  py_str Cases.no_builtin_str
    (FunctionCall (VariableReference (VList [VStr "a"; VStr "b"]))
       (VList [VariableReference (VList [VStr "x"]); Literal (VStr "y")]))
  = Return "a.b(x, y)"
  /\ py_str Cases.no_builtin_str
       (FunctionCall (VariableReference (VList [VStr "now"])) (VList []))
     = Return "now()".
Proof.
  split.
  - apply (function_call_renders_call_syntax Cases.no_builtin_str
             (VariableReference (VList [VStr "a"; VStr "b"]))
             [VariableReference (VList [VStr "x"]); Literal (VStr "y")]
             "a.b" ["x"; "y"] eq_refl).
    repeat constructor.
  - apply (function_call_renders_call_syntax Cases.no_builtin_str
             (VariableReference (VList [VStr "now"])) [] "now" [] eq_refl).
    constructor.
Defined.

Lemma left_tree_renders_nested_witness :
  py_str Cases.no_builtin_str
    (left_tree (VariableReference (VList [VStr "a"]))
       [(VStr "-", VariableReference (VList [VStr "b"]));
        (VStr "+", VariableReference (VList [VStr "c"]))])
  = Return "((a - b) + c)".
Proof.
  apply (left_tree_renders_nested Cases.no_builtin_str
           (VariableReference (VList [VStr "a"]))
           [(VStr "-", VariableReference (VList [VStr "b"]));
            (VStr "+", VariableReference (VList [VStr "c"]))]
           "a" [("-", "b"); ("+", "c")] eq_refl).
  repeat constructor.
Defined.
